(** * Online Tic Tac Toe front end: a model of [App.js]

    The React component tree of [tic_tac_toe_frontend/src/App.js] is
    embedded as follows.

    - JavaScript values that travel through the program (parsed JSON
      responses, board cells, the session record) are the inductive
      type [value].
    - The component state of [App] (its thirteen [useState] cells) is
      the record [AppState]; together with the browser's [localStorage]
      it forms the [World].
    - Event handlers are computations in the monad [M] (state plus
      JavaScript exceptions).  An [async] handler is cut at its single
      [await apiFetch(...)]: it runs to a value of type [async], either [Done]
      or [Await url options k], where [k] is the rest of the handler,
      resumed with the outcome of the HTTP exchange.  No handler reads
      the component state after its [await], so threading the state
      through the setters in program order gives the state React
      renders next.
    - A component is the function from its properties to what it
      renders, or to the exception its render throws; [App] has no
      error boundary, so an exception in any part leaves no page.
    - The scheduling of the [useEffect] hooks (which start
      [fetchMatchHistory] and [fetchGame] when [user] or [gameId]
      change) is not part of the model; the handlers they start are. *)

From Stdlib Require Import Ascii.
From stdpp Require Import base strings list gmap pretty.

Local Open Scope string_scope.
Local Open Scope Z_scope.

(** ** JavaScript values *)

(** Values as [JSON.parse] produces them, plus [undefined].  Numbers are
    the integers (ids and cell indexes).  A string is held as the
    sequence of its UTF-16 code units, one character of [string] per
    unit, so that length, indexing, concatenation and equality are those
    of JavaScript; strings with a unit above 255 are outside the model.
    Objects keep their fields in insertion order. *)
#[warnings="-register-all"]
Inductive value : Type :=
| VUndefined
| VNull
| VBool (b : bool)
| VNum (n : Z)
| VStr (s : string)
| VArr (elems : list value)
| VObj (fields : list (string * value)).

(** The UTF-16 code units of the JavaScript string that [s] stands
    for. *)
Definition code_units (s : string) : list N :=
  N_of_ascii <$> String.list_ascii_of_string s.

(** [!!v]: the falsy values are [undefined], [null], [false], [0] and
    the empty string. *)
Definition truthy (v : value) : bool :=
  match v with
  | VUndefined | VNull => false
  | VBool b => b
  | VNum n => negb (n =? 0)
  | VStr s => negb (String.eqb s "")
  | VArr _ | VObj _ => true
  end.

(** [x === y].  Primitives compare by type and value.  Arrays and
    objects compare by reference; the program only ever compares two
    different positions of one parsed JSON document, which never hold
    the same reference, hence [false]. *)
Definition strict_eq (x y : value) : bool :=
  match x, y with
  | VUndefined, VUndefined => true
  | VNull, VNull => true
  | VBool a, VBool b => Bool.eqb a b
  | VNum a, VNum b => a =? b
  | VStr a, VStr b => String.eqb a b
  | _, _ => false
  end.

(** [Array.isArray(v)] *)
Definition isArray (v : value) : bool :=
  match v with VArr _ => true | _ => false end.

(** ** Exceptions and completions *)

Inductive key : Type :=
| Name (p : string)
| Index (i : nat).

Inductive exn : Type :=
| ApiError (detail : value)
    (* [new Error(err.detail || err.message || 'API Error')] in [apiFetch] *)
| TypeError (target : value) (k : key)
    (* reading property [k] of [undefined] or [null], or calling a
       method [k] that [target] does not have *)
| FetchError (message : string)
    (* a rejected [fetch(...)] or [response.json()] *)
| ChildError (child : value).
    (* React, given an object to render as a child *)

Inductive completion (A : Type) : Type :=
| Normal (a : A)
| Throw (e : exn).
Arguments Normal {A} a.
Arguments Throw {A} e.

(** ** Property access *)

Definition obj_lookup (p : string) (fields : list (string * value)) : value :=
  match find (λ kv, String.eqb (fst kv) p) fields with
  | Some kv => snd kv
  | None => VUndefined
  end.

(** [v.p] for the data fields the program reads ([id], [state],
    [winner], [win_line], [games], [detail], [message], [username]):
    a [TypeError] on [undefined] and [null], the field of an object,
    [undefined] on every other value. *)
Definition get_prop (v : value) (p : string) : completion value :=
  match v with
  | VUndefined | VNull => Throw (TypeError v (Name p))
  | VObj fields => Normal (obj_lookup p fields)
  | _ => Normal VUndefined
  end.

(** [v[i]] for a number [i]: the element of an array ([undefined] out of
    range), the code unit of a string at that position, as a string of
    length one, the field named by the decimal numeral of an object. *)
Definition get_index (v : value) (i : nat) : completion value :=
  match v with
  | VUndefined | VNull => Throw (TypeError v (Index i))
  | VArr elems => Normal (default VUndefined (elems !! i))
  | VStr s =>
      Normal (match String.get i s with
              | Some c => VStr (String c "")
              | None => VUndefined
              end)
  | VObj fields => Normal (obj_lookup (pretty i) fields)
  | _ => Normal VUndefined
  end.

(** [v?.p] *)
Definition get_prop_opt (v : value) (p : string) : completion value :=
  match v with
  | VUndefined | VNull => Normal VUndefined
  | _ => get_prop v p
  end.

(** ** Component state *)

(** The [useState] cells of [App], in declaration order.  [board] is
    only ever set to an array, [playing], [fetching] and [authLoading]
    to booleans, [msg], [authError] and [theme] to strings. *)
Record AppState : Type := mkApp {
  theme : string;
  user : value;
  authError : string;
  authLoading : bool;
  gameId : value;
  game : value;
  playing : bool;
  board : list value;
  winLine : value;
  fetching : bool;
  msg : string;
  result : value;
  history : value
}.

(** [Array(9).fill(null)] *)
Definition emptyBoard : list value := replicate 9 VNull.

(** All possible win lines (as board cell indexes). *)
Definition WIN_LINES : list (nat * nat * nat) :=
  [ (0,1,2); (3,4,5); (6,7,8);   (* rows *)
    (0,3,6); (1,4,7); (2,5,8);   (* cols *)
    (0,4,8); (2,4,6) ]%nat.      (* diag *)

(** The state after the first render of [App]. *)
Definition initialApp : AppState :=
  {| theme := "light"; user := VNull; authError := ""; authLoading := false;
     gameId := VNull; game := VNull; playing := false; board := emptyBoard;
     winLine := VNull; fetching := false; msg := ""; result := VNull;
     history := VArr [] |}.

(** The browser side: component state and [localStorage]. *)
Record World : Type := mkWorld {
  app : AppState;
  localStorage : gmap string string
}.

Definition initialWorld : World :=
  {| app := initialApp; localStorage := ∅ |}.

(** ** The handler monad: state threaded through, exceptions propagated *)

Definition M (A : Type) : Type := World → completion A * World.

Definition ret {A} (a : A) : M A := λ w, (Normal a, w).

Definition bind {A B} (m : M A) (f : A → M B) : M B :=
  λ w, match m w with
       | (Normal a, w') => f a w'
       | (Throw e, w') => (Throw e, w')
       end.

Definition throw {A} (e : exn) : M A := λ w, (Throw e, w).

(** [try { m } catch (e) { h e }] *)
Definition try_catch {A} (m : M A) (h : exn → M A) : M A :=
  λ w, match m w with
       | (Normal a, w') => (Normal a, w')
       | (Throw e, w') => h e w'
       end.

Definition lift {A} (c : completion A) : M A := λ w, (c, w).

Definition modify_app (f : AppState → AppState) : M unit :=
  λ w, (Normal tt, {| app := f (app w); localStorage := localStorage w |}).

Definition read_app {A} (f : AppState → A) : M A :=
  λ w, (Normal (f (app w)), w).

(** The monad is used through stdpp's [x ← m; k] and [m ;; k]. *)
#[global] Instance M_ret : MRet M := @ret.
#[global] Instance M_bind : MBind M := λ A B f m, bind m f.

(** [if (c) { m }] *)
Definition when (c : bool) (m : M unit) : M unit :=
  if c then m else ret tt.

(** ** Win-line detection (lines 322-330) *)

(** The result of [return [a, b, c]]. *)
Definition line_value (l : nat * nat * nat) : value :=
  let '(a, b, c) := l in
  VArr [VNum (Z.of_nat a); VNum (Z.of_nat b); VNum (Z.of_nat c)].

(** [board[a] && board[a] === board[b] && board[a] === board[c]], read
    left to right with short-circuit evaluation. *)
Definition line_test (board : value) (l : nat * nat * nat) : M bool :=
  let '(a, b, c) := l in
  x ← lift (get_index board a);
  if truthy x then
    x1 ← lift (get_index board a);
    y ← lift (get_index board b);
    if strict_eq x1 y then
      x2 ← lift (get_index board a);
      z ← lift (get_index board c);
      ret (strict_eq x2 z)
    else ret false
  else ret false.

(** The [for (let line of lines)] loop with its early [return]. *)
Fixpoint getWinLine_from (lines : list (nat * nat * nat)) (board : value)
  : M value :=
  match lines with
  | [] => ret VNull
  | line :: rest =>
      hit ← line_test board line;
      if (hit : bool) then ret (line_value line) else getWinLine_from rest board
  end.

Definition getWinLine (board : value) : M value :=
  getWinLine_from WIN_LINES board.

Definition X : value := VStr "X".
Definition O : value := VStr "O".

(** ** State setters *)

Definition setTheme (v : string) (s : AppState) : AppState :=
  mkApp v (user s) (authError s) (authLoading s) (gameId s) (game s)
        (playing s) (board s) (winLine s) (fetching s) (msg s) (result s)
        (history s).
Definition setUser (v : value) (s : AppState) : AppState :=
  mkApp (theme s) v (authError s) (authLoading s) (gameId s) (game s)
        (playing s) (board s) (winLine s) (fetching s) (msg s) (result s)
        (history s).
Definition setAuthError (v : string) (s : AppState) : AppState :=
  mkApp (theme s) (user s) v (authLoading s) (gameId s) (game s)
        (playing s) (board s) (winLine s) (fetching s) (msg s) (result s)
        (history s).
Definition setAuthLoading (v : bool) (s : AppState) : AppState :=
  mkApp (theme s) (user s) (authError s) v (gameId s) (game s)
        (playing s) (board s) (winLine s) (fetching s) (msg s) (result s)
        (history s).
Definition setGameId (v : value) (s : AppState) : AppState :=
  mkApp (theme s) (user s) (authError s) (authLoading s) v (game s)
        (playing s) (board s) (winLine s) (fetching s) (msg s) (result s)
        (history s).
Definition setGame (v : value) (s : AppState) : AppState :=
  mkApp (theme s) (user s) (authError s) (authLoading s) (gameId s) v
        (playing s) (board s) (winLine s) (fetching s) (msg s) (result s)
        (history s).
Definition setPlaying (v : bool) (s : AppState) : AppState :=
  mkApp (theme s) (user s) (authError s) (authLoading s) (gameId s) (game s)
        v (board s) (winLine s) (fetching s) (msg s) (result s)
        (history s).
Definition setBoard (v : list value) (s : AppState) : AppState :=
  mkApp (theme s) (user s) (authError s) (authLoading s) (gameId s) (game s)
        (playing s) v (winLine s) (fetching s) (msg s) (result s)
        (history s).
Definition setWinLine (v : value) (s : AppState) : AppState :=
  mkApp (theme s) (user s) (authError s) (authLoading s) (gameId s) (game s)
        (playing s) (board s) v (fetching s) (msg s) (result s)
        (history s).
Definition setFetching (v : bool) (s : AppState) : AppState :=
  mkApp (theme s) (user s) (authError s) (authLoading s) (gameId s) (game s)
        (playing s) (board s) (winLine s) v (msg s) (result s)
        (history s).
Definition setMsg (v : string) (s : AppState) : AppState :=
  mkApp (theme s) (user s) (authError s) (authLoading s) (gameId s) (game s)
        (playing s) (board s) (winLine s) (fetching s) v (result s)
        (history s).
Definition setResult (v : value) (s : AppState) : AppState :=
  mkApp (theme s) (user s) (authError s) (authLoading s) (gameId s) (game s)
        (playing s) (board s) (winLine s) (fetching s) (msg s) v
        (history s).
Definition setHistory (v : value) (s : AppState) : AppState :=
  mkApp (theme s) (user s) (authError s) (authLoading s) (gameId s) (game s)
        (playing s) (board s) (winLine s) (fetching s) (msg s) (result s)
        v.

(** ** [localStorage] *)

(** The storage calls of the program succeed; the quota and security
    exceptions of the Storage API are outside the model. *)
Definition localStorage_setItem (k v : string) : M unit :=
  λ w, (Normal tt, {| app := app w; localStorage := <[k:=v]> (localStorage w) |}).

Definition localStorage_removeItem (k : string) : M unit :=
  λ w, (Normal tt, {| app := app w; localStorage := delete k (localStorage w) |}).

Definition localStorage_getItem (k : string) : M (option string) :=
  λ w, (Normal (localStorage w !! k), w).

(** ** What the JavaScript platform supplies *)

(** Library functions and configuration the program calls but does not
    define. *)
Class Runtime : Type := {
  (** [process.env.REACT_APP_API_BASE] *)
  REACT_APP_API_BASE : option string;
  (** [JSON.stringify] *)
  JSON_stringify : value → string;
  (** [JSON.parse] *)
  JSON_parse : string → completion value;
  (** string conversion, in template literals and in [new Error(v)] *)
  ToString : value → string;
  (** the engine's text for a failed property read *)
  TypeError_message : value → key → string;
  (** React's text for an object given as a child *)
  ChildError_message : value → string
}.

(** ** HTTP *)

(** The [options] object passed to [apiFetch]; the [Content-Type]
    header [apiFetch] adds is the same for every request. *)
Record fetch_options : Type := mkOptions {
  method : option string;
  body : option string
}.

(** How an HTTP exchange started by [apiFetch] ends: [fetch] rejects, or
    a response arrives, with its [ok] flag and the outcome of
    [response.json()]. *)
Inductive fetch_outcome : Type :=
| Rejected (e : exn)
| Responded (ok : bool) (json : completion value).

#[global] Instance completion_ret : MRet completion := @Normal.
#[global] Instance completion_bind : MBind completion :=
  λ A B f c, match c with Normal a => f a | Throw e => Throw e end.

(** [apiFetch] (lines 8-20) after its [await fetch(...)]. *)
Definition apiFetch_result (o : fetch_outcome) : completion value :=
  match o with
  | Rejected e => Throw e
  | Responded false json =>
      (* [await response.json().catch(() => ({}))] *)
      let err := match json with Normal v => v | Throw _ => VObj [] end in
      (* [throw new Error(err.detail || err.message || 'API Error')] *)
      detail ← get_prop err "detail";
      if truthy detail then Throw (ApiError detail)
      else
        message ← get_prop err "message";
        if truthy message then Throw (ApiError message)
        else Throw (ApiError (VStr "API Error"))
  | Responded true json => json
  end.

(** An [async] handler either finishes synchronously or is suspended at
    [await apiFetch(url, options)] with the rest of its body. *)
Inductive async : Type :=
| Done
| Await (url : string) (options : fetch_options) (k : fetch_outcome → M unit).

(** ** The handlers of [App] *)

Section Handlers.
Context `{Runtime}.

(** [process.env.REACT_APP_API_BASE || 'http://localhost:8000'] *)
Definition API_BASE : string :=
  match REACT_APP_API_BASE with
  | Some s => if String.eqb s "" then "http://localhost:8000" else s
  | None => "http://localhost:8000"
  end.

(** [e.message] *)
Definition message (e : exn) : string :=
  match e with
  | ApiError detail => ToString detail
  | TypeError target k => TypeError_message target k
  | FetchError m => m
  | ChildError child => ChildError_message child
  end.

(** [user?.id || user?.username] *)
Definition player_of (u : value) : completion value :=
  id ← get_prop_opt u "id";
  if truthy id then Normal id else get_prop_opt u "username".

(** [res.state && Array.isArray(res.state) ? res.state : [...emptyBoard]] *)
Definition snapshot (res : value) : completion (list value) :=
  state ← get_prop res "state";
  if truthy state && isArray state
  then match state with VArr cells => Normal cells | _ => Normal emptyBoard end
  else Normal emptyBoard.

(** [res.winner === 'draw' ? 'draw' : res.winner] *)
Definition result_of (winner : value) : value :=
  if strict_eq winner (VStr "draw") then VStr "draw" else winner.

(** [res.win_line || getWinLine(res.state)] *)
Definition win_line_of (res : value) : M value :=
  win_line ← lift (get_prop res "win_line");
  if truthy win_line then ret win_line
  else
    state ← lift (get_prop res "state");
    getWinLine state.

(** *** Authentication (lines 203-226) *)

Definition handleAuth_resume (username : string) (o : fetch_outcome) : M unit :=
  try_catch
    (res ← try_catch
             (lift (apiFetch_result o))
             (* If backend doesn't support auth, just use username as id *)
             (λ _, ret (VObj [("id", VStr username); ("username", VStr username)]));
     modify_app (setUser res);;
     localStorage_setItem "ttt-user" (JSON_stringify res))
    (λ e, modify_app (setAuthError
            (if String.eqb (message e) "" then "Auth error" else message e)));;
  modify_app (setAuthLoading false).

Definition handleAuth (username : string) (signup : bool) : M async :=
  modify_app (setAuthLoading true);;
  modify_app (setAuthError "");;
  let route := if signup then "/users/signup" else "/users/login" in
  ret (Await (API_BASE ++ route)
         {| method := Some "POST";
            body := Some (JSON_stringify (VObj [("username", VStr username)])) |}
         (handleAuth_resume username)).

(** The logout button (lines 378-381). *)
Definition logout : M unit :=
  modify_app (setUser VNull);;
  localStorage_removeItem "ttt-user".

(** On mount: try to load user from [localStorage] (lines 185-188). *)
Definition loadUser : M unit :=
  item ← localStorage_getItem "ttt-user";
  (* [JSON.parse(null)] is [null] *)
  u ← match item with
      | Some text => lift (JSON_parse text)
      | None => ret VNull
      end;
  when (truthy u) (modify_app (setUser u)).

(** *** Start a new game (lines 229-247) *)

Definition startNewGame_catch (e : exn) : M unit :=
  modify_app (setMsg ("Failed to create game: " ++ message e)).

Definition startNewGame_resume (o : fetch_outcome) : M unit :=
  try_catch
    (res ← lift (apiFetch_result o);
     id ← lift (get_prop res "id");
     modify_app (setGameId id);;
     cells ← lift (snapshot res);
     modify_app (setBoard cells);;
     modify_app (setPlaying true);;
     modify_app (setResult VNull);;
     modify_app (setWinLine VNull))
    startNewGame_catch;;
  modify_app (setFetching false).

Definition startNewGame : M async :=
  modify_app (setMsg "Creating game...");;
  modify_app (setFetching true);;
  try_catch
    (u ← read_app user;
     player ← lift (player_of u);
     ret (Await (API_BASE ++ "/games")
            {| method := Some "POST";
               body := Some (JSON_stringify (VObj [("player", player)])) |}
            startNewGame_resume))
    (λ e, startNewGame_catch e;; modify_app (setFetching false);; ret Done).

(** *** Join or resume an existing game (lines 250-265) *)

Definition joinGame_catch (e : exn) : M unit :=
  modify_app (setMsg ("Could not join: " ++ message e)).

Definition joinGame_resume (o : fetch_outcome) : M unit :=
  try_catch
    (res ← lift (apiFetch_result o);
     id ← lift (get_prop res "id");
     modify_app (setGameId id);;
     cells ← lift (snapshot res);
     modify_app (setBoard cells);;
     modify_app (setGame res);;
     modify_app (setPlaying true);;
     modify_app (setResult VNull);;
     modify_app (setWinLine VNull))
    joinGame_catch;;
  modify_app (setFetching false).

Definition joinGame (id : value) : M async :=
  modify_app (setMsg "Joining game...");;
  modify_app (setFetching true);;
  ret (Await (API_BASE ++ "/games/" ++ ToString id)
         {| method := None; body := None |}
         joinGame_resume).

(** *** Make a move (lines 268-288) *)

Definition playMove_catch (e : exn) : M unit :=
  modify_app (setMsg ("Move failed: " ++ message e)).

Definition playMove_resume (o : fetch_outcome) : M unit :=
  try_catch
    (res ← lift (apiFetch_result o);
     cells ← lift (snapshot res);
     modify_app (setBoard cells);;
     modify_app (setGame res);;
     winner ← lift (get_prop res "winner");
     when (truthy winner)
       (modify_app (setResult (result_of winner));;
        line ← win_line_of res;
        modify_app (setWinLine line);;
        modify_app (setPlaying false)))
    playMove_catch;;
  modify_app (setFetching false).

Definition playMove (cellIdx : nat) : M async :=
  gid ← read_app gameId;
  u ← read_app user;
  (* [if (!gameId || !user) return;] *)
  if negb (truthy gid) || negb (truthy u) then ret Done
  else
    modify_app (setMsg "");;
    modify_app (setFetching true);;
    try_catch
      (player ← lift (player_of u);
       ret (Await (API_BASE ++ "/games/" ++ ToString gid ++ "/move")
              {| method := Some "POST";
                 body := Some (JSON_stringify
                          (VObj [("player", player);
                                 ("move_index", VNum (Z.of_nat cellIdx))])) |}
              playMove_resume))
      (λ e, playMove_catch e;; modify_app (setFetching false);; ret Done).

(** *** Fetch game state (lines 291-305) *)

Definition fetchGame_catch (e : exn) : M unit :=
  modify_app (setMsg ("Load failed: " ++ message e)).

Definition fetchGame_resume (o : fetch_outcome) : M unit :=
  try_catch
    (res ← lift (apiFetch_result o);
     modify_app (setGame res);;
     cells ← lift (snapshot res);
     modify_app (setBoard cells);;
     winner ← lift (get_prop res "winner");
     modify_app (setResult (if truthy winner then result_of winner else VNull));;
     line ← win_line_of res;
     modify_app (setWinLine line);;
     winner' ← lift (get_prop res "winner");
     modify_app (setPlaying (negb (truthy winner'))))
    fetchGame_catch;;
  modify_app (setFetching false).

Definition fetchGame (id : value) : M async :=
  modify_app (setMsg "Loading game...");;
  modify_app (setFetching true);;
  ret (Await (API_BASE ++ "/games/" ++ ToString id)
         {| method := None; body := None |}
         fetchGame_resume).

(** *** Fetch match history (lines 308-319) *)

Definition fetchMatchHistory_catch (e : exn) : M unit :=
  modify_app (setMsg ("Failed to load history: " ++ message e));;
  modify_app (setHistory (VArr [])).

Definition fetchMatchHistory_resume (o : fetch_outcome) : M unit :=
  try_catch
    (res ← lift (apiFetch_result o);
     games ← lift (get_prop res "games");
     (* [res.games || res || []] *)
     modify_app (setHistory
       (if truthy games then games
        else if truthy res then res else VArr [])))
    fetchMatchHistory_catch.

Definition fetchMatchHistory : M async :=
  modify_app (setMsg "Loading match history...");;
  try_catch
    (u ← read_app user;
     userId ← lift (player_of u);
     ret (Await (API_BASE ++ "/users/" ++ ToString userId ++ "/games")
            {| method := None; body := None |}
            fetchMatchHistory_resume))
    (λ e, fetchMatchHistory_catch e;; ret Done).

(** The theme button (lines 349 and 367). *)
Definition toggleTheme : M unit :=
  modify_app (λ s, setTheme (if String.eqb (theme s) "light" then "dark" else "light") s).

End Handlers.

(** ** Rendering *)

(** [list.map(f)] for a callback that may throw. *)
Fixpoint map_completion {A B} (f : A → completion B) (l : list A)
  : completion (list B) :=
  match l with
  | [] => Normal []
  | x :: rest =>
      y ← f x;
      ys ← map_completion f rest;
      Normal (y :: ys)
  end.

(** What React accepts as a child: strings, numbers, booleans, [null]
    and [undefined], and arrays of such; an object is refused. *)
Fixpoint valid_child (v : value) : bool :=
  match v with
  | VObj _ => false
  | VArr elems => forallb valid_child elems
  | _ => true
  end.

(** [{v}] among the children of an element. *)
Definition render_child (v : value) : completion value :=
  if valid_child v then Normal v else Throw (ChildError v).

(** What is on the page of a list of elements whose render may have
    thrown: [App] has no error boundary, so an exception leaves
    nothing. *)
Definition on_screen {A} (c : completion (list A)) : list A :=
  match c with
  | Normal l => l
  | Throw _ => []
  end.

(** ** Highlighting (line 35) *)

(** [highlight && highlight.includes(idx)], the test that gives a cell
    the class [ttt-highlight]: false on a falsy [highlight]; on an array
    whether some element equals the number [idx]; on a string whether
    the numeral of [idx] occurs in it; any other truthy value has no
    [includes] method and the call is a [TypeError]. *)
Definition highlighted (highlight : value) (idx : nat) : completion bool :=
  if truthy highlight
  then match highlight with
       | VArr elems =>
           Normal (existsb (λ x, strict_eq x (VNum (Z.of_nat idx))) elems)
       | VStr s =>
           Normal (match String.index 0 (pretty idx) s with
                   | Some _ => true
                   | None => false
                   end)
       | _ => Throw (TypeError highlight (Name "includes"))
       end
  else Normal false.

(** Whether the highlight test can be evaluated on [highlight]. *)
Definition can_highlight (highlight : value) : bool :=
  negb (truthy highlight) ||
  match highlight with
  | VArr _ | VStr _ => true
  | _ => false
  end.

(** ** The board component (lines 28-46) *)

(** The properties [GameBoard] receives; [R] is what a call of the
    [onPlay] callback produces. *)
Record GameBoardProps (R : Type) : Type := mkProps {
  board_prop : list value;
  disabled_prop : bool;
  onPlay_prop : option (nat → R);   (* a callback, or [null] *)
  highlight_prop : value
}.
Arguments mkProps {R} _ _ _ _.
Arguments board_prop {R} _.
Arguments disabled_prop {R} _.
Arguments onPlay_prop {R} _.
Arguments highlight_prop {R} _.

(** One rendered [<button>]: whether it has the class [ttt-highlight],
    its [disabled] attribute and what its [onClick] handler,
    [() => onPlay && onPlay(idx)], calls.  Its label and its picture are
    strings made of the cell and are left out. *)
Record button (R : Type) : Type := mkButton {
  btn_highlight : bool;
  btn_disabled : bool;
  btn_onClick : option R
}.
Arguments mkButton {R} _ _ _.
Arguments btn_highlight {R} _.
Arguments btn_disabled {R} _.
Arguments btn_onClick {R} _.

(** The body of [board.map((cell, idx) => <button ... />)]: the class
    name is evaluated first. *)
Definition GameBoard_cell {R} (props : GameBoardProps R) (idx : nat)
    (cell : value) : completion (button R) :=
  highlight ← highlighted (highlight_prop props) idx;
  Normal {| btn_highlight := highlight;
            btn_disabled := disabled_prop props || truthy cell;
            btn_onClick := (λ onPlay, onPlay idx) <$> onPlay_prop props |}.

(** [board.map((cell, idx) => <button ... />)] *)
Definition GameBoard {R} (props : GameBoardProps R)
  : completion (list (button R)) :=
  map_completion (λ '(idx, cell), GameBoard_cell props idx cell)
                 (imap pair (board_prop props)).

(** A click on the cell at [idx]: the browser dispatches no click event
    on a disabled button, otherwise the [onClick] handler runs. *)
Definition click {R} (buttons : list (button R)) (idx : nat) : option R :=
  b ← buttons !! idx;
  if btn_disabled b then None else btn_onClick b.

Section Render.
Context `{Runtime}.

(** The [<GameBoard ... />] element of [App] (lines 407-412), part of
    the view rendered once a user is set. *)
Definition App_GameBoard (s : AppState) : GameBoardProps (M async) :=
  {| board_prop := board s;
     disabled_prop := negb (playing s) || fetching s || truthy (result s);
     onPlay_prop := if playing s then Some playMove else None;
     highlight_prop := winLine s |}.

End Render.

(** ** The board of the specification *)

(** A cell of the specification's Board: empty, mark A or mark B. *)
Inductive cell : Type := empty | markA | markB.

#[global] Instance cell_eq_dec : EqDecision cell.
Proof. solve_decision. Defined.

(** How the program holds such a cell: [null], ['X'], ['O']. *)
Definition cell_value (c : cell) : value :=
  match c with
  | empty => VNull
  | markA => X
  | markB => O
  end.

Definition board_value (b : list cell) : value := VArr (cell_value <$> b).

(** The Outcome of the specification. *)
Inductive Outcome : Type :=
| none
| win (mark : cell) (line : nat * nat * nat)
| draw.

(** The three cells of [line] hold the same mark [m], not [empty]. *)
Definition complete_with (b : list cell) (line : nat * nat * nat) (m : cell) : Prop :=
  let '(i, j, k) := line in
  m ≠ empty ∧ b !! i = Some m ∧ b !! j = Some m ∧ b !! k = Some m.

Definition complete (b : list cell) (line : nat * nat * nat) : Prop :=
  ∃ m, complete_with b line m.

(** [line] is the first complete triple of the fixed enumeration. *)
Definition first_complete (b : list cell) (line : nat * nat * nat) : Prop :=
  ∃ before after,
    WIN_LINES = (before ++ line :: after)%list ∧
    complete b line ∧
    ∀ l, l ∈ before → ¬ complete b l.

(** The contract of the outcome derivation as the specification words
    it, for a function [derive] from boards to outcomes. *)
Definition outcome_contract (derive : list cell → Outcome) : Prop :=
  ∀ b, length b = 9%nat →
    (∀ line m, first_complete b line → complete_with b line m →
               derive b = win m line) ∧
    ((∀ l, l ∈ WIN_LINES → ¬ complete b l) → empty ∉ b → derive b = draw) ∧
    ((∀ l, l ∈ WIN_LINES → ¬ complete b l) → empty ∈ b → derive b = none).

(** ** A runtime for running handlers on concrete inputs *)

(** A platform whose library functions are trivial; the handlers are
    evaluated on it where the strings they build do not matter. *)
Definition plain_runtime : Runtime :=
  {| REACT_APP_API_BASE := None;
     JSON_stringify := λ _, "{}";
     JSON_parse := λ _, Normal VNull;
     ToString := λ v, match v with
                      | VStr s => s
                      | VNum n => pretty n
                      | _ => ""
                      end;
     TypeError_message := λ _ _, "TypeError";
     ChildError_message := λ _, "Objects are not valid as a React child" |}.

(** ** Concrete boards, responses and worlds *)

(** Scenario 1 of the specification. *)
Definition row_board : list cell :=
  [markA; markA; markA; empty; empty; empty; empty; empty; empty].

(** Scenario 2 of the specification: all filled, no triple equal. *)
Definition full_board : list cell :=
  [markA; markB; markA; markB; markA; markB; markB; markA; markB].

(** Scenario 3 of the specification: two marks, no triple equal. *)
Definition open_board : list cell :=
  [markA; empty; empty; empty; markB; empty; empty; empty; empty].

(** The formal reading of "logout discards the in-memory game state":
    the game part of the state is what it is before any game. *)
Definition game_state_discarded (s : AppState) : Prop :=
  gameId s = gameId initialApp ∧ game s = game initialApp ∧
  playing s = playing initialApp ∧ board s = board initialApp ∧
  winLine s = winLine initialApp ∧ result s = result initialApp.

(** The backend is unreachable. *)
Definition no_backend : fetch_outcome := Rejected (FetchError "Failed to fetch").

(** A new game, numbered 7, in which X has played the first cell. *)
Definition new_game_response : fetch_outcome :=
  Responded true
    (Normal (VObj [("id", VNum 7);
                   ("state", VArr [X; VNull; VNull; VNull; VNull;
                                   VNull; VNull; VNull; VNull]);
                   ("next", O)])).


(** A game state reporting that X has won on the first row. *)
Definition won_game : value :=
  VObj [("id", VNum 7);
        ("state", VArr [X; X; X; O; O; VNull; VNull; VNull; VNull]);
        ("winner", X);
        ("win_line", VArr [VNum 0; VNum 1; VNum 2])].

Definition won_response : fetch_outcome := Responded true (Normal won_game).


(** The world after "ann" has logged in without a backend and a game
    has been started. *)
Definition game_in_progress : World :=
  snd (@startNewGame_resume plain_runtime new_game_response
         (snd (@handleAuth_resume plain_runtime "ann" no_backend initialWorld))).

(** ** Auxiliary notions used in the statements *)

(** [cells[i]], [undefined] past the end. *)
Definition cell_at (cells : list value) (i : nat) : value :=
  default VUndefined (cells !! i).

(** The value of the test of [getWinLine] on an array. *)
Definition line_wins (cells : list value) (l : nat * nat * nat) : bool :=
  let '(a, b, c) := l in
  truthy (cell_at cells a)
  && strict_eq (cell_at cells a) (cell_at cells b)
  && strict_eq (cell_at cells a) (cell_at cells c).

(** Whether the cell at [idx] gets the class [ttt-highlight], when the
    highlight test can be evaluated. *)
Definition highlight_bit (highlight : value) (idx : nat) : bool :=
  match highlighted highlight idx with
  | Normal b => b
  | Throw _ => false
  end.

(** The buttons [GameBoard] makes when its render goes through. *)
Definition drawn_buttons {R} (props : GameBoardProps R) : list (button R) :=
  imap (λ idx cell,
          {| btn_highlight := highlight_bit (highlight_prop props) idx;
             btn_disabled := disabled_prop props || truthy cell;
             btn_onClick := (λ onPlay, onPlay idx) <$> onPlay_prop props |})
       (board_prop props).

(** A computation that neither reads nor writes the world. *)
Definition pure {A} (m : M A) : Prop :=
  ∃ r, ∀ w, m w = (r, w).

(** The sequence a reader of nine cells sees: cut after nine cells,
    [undefined] where the sequence has none. *)
Definition nine_cells (cells : list value) : list value :=
  take 9 (cells ++ replicate 9 VUndefined).

(** ** The result overlay (lines 52-77) *)

(** The two pictures a winner is announced with. *)
Inductive symbol : Type := Cross | Circle.

(** What [GameResult] returns: nothing, the draw card or the win card.
    A card carries the callback of its "New Game" button; the win card
    carries the line it announces, if it announces one. *)
Inductive result_card (R : Type) : Type :=
| NoCard
| DrawCard (onReplay : R)
| WinCard (who : symbol) (line : option value) (onReplay : R).
Arguments NoCard {R}.
Arguments DrawCard {R} _.
Arguments WinCard {R} _ _ _.

(** The announcement [winLine && ... winLine.map((i) => i + 1).join(', ')]:
    no line when [winLine] is falsy; on an array the text is built
    (not modelled, the line itself is recorded); any other truthy value
    has no [map] method and the call is a [TypeError]. *)
Definition announced_line (winLine : value) : completion (option value) :=
  if truthy winLine
  then match winLine with
       | VArr _ => Normal (Some winLine)
       | _ => Throw (TypeError winLine (Name "map"))
       end
  else Normal None.

Definition GameResult {R} (result winner winLine : value) (onReplay : R)
  : completion (result_card R) :=
  (* [if (!result) return null;] *)
  if negb (truthy result) then Normal NoCard
  else if strict_eq result (VStr "draw") then Normal (DrawCard onReplay)
  else
    line ← announced_line winLine;
    Normal (WinCard (if strict_eq winner X then Cross else Circle) line onReplay).

(** ** The match history sidebar (lines 83-108) *)

(** The label of an entry: ['In progress'], ['Draw'] or
    [`Winner: ${game.winner}`]. *)
Inductive game_status : Type :=
| InProgress
| Drawn
| WonBy (winner : value).

(** One entry of the list: its [selected] class, the game it names, its
    label and what its [onClick] handler calls. *)
Record history_item (R : Type) : Type := mkItem {
  item_selected : bool;
  item_id : value;
  item_status : game_status;
  item_onClick : R
}.
Arguments mkItem {R} _ _ _ _.
Arguments item_selected {R} _.
Arguments item_id {R} _.
Arguments item_status {R} _.
Arguments item_onClick {R} _.

(** The body of [history.map((game) => ...)], which makes the element
    of an entry; React renders the children of the elements after the
    whole list is made, see [MatchHistory]. *)
Definition history_entry {R} (currentGameId : value) (onSelectGame : value → R)
    (game : value) : completion (history_item R) :=
  id ← get_prop game "id";
  winner ← get_prop game "winner";
  Normal {| item_selected := strict_eq id currentGameId;
            item_id := id;
            item_status :=
              if truthy winner
              then (if strict_eq winner (VStr "draw") then Drawn else WonBy winner)
              else InProgress;
            item_onClick := onSelectGame id |}.

(** [Game #{game.id}]: React renders the entries in order and refuses
    the first [id] that is an object. *)
Definition render_entries {R} (items : list (history_item R))
  : completion (list (history_item R)) :=
  match find (λ it, negb (valid_child (item_id it))) items with
  | Some it => Throw (ChildError (item_id it))
  | None => Normal items
  end.

(** The entries of the sidebar; the empty list stands for the "No
    history yet" line.  [history.length === 0] is tried first, then
    [history.map(...)]: a value without a [map] method makes the call a
    [TypeError], recorded with the receiver and the method name.  The
    elements made by the map are then rendered. *)
Definition MatchHistory {R} (history currentGameId : value)
    (onSelectGame : value → R) : completion (list (history_item R)) :=
  match history with
  | VUndefined | VNull => Throw (TypeError history (Name "length"))
  | VArr games =>
      if (length games =? 0)%nat then Normal []
      else
        items ← map_completion (history_entry currentGameId onSelectGame) games;
        render_entries items
  | VStr s =>
      if String.eqb s "" then Normal []
      else Throw (TypeError history (Name "map"))
  | VObj fields =>
      if strict_eq (obj_lookup "length" fields) (VNum 0) then Normal []
      else Throw (TypeError history (Name "map"))
  | VBool _ | VNum _ => Throw (TypeError history (Name "map"))
  end.

(** ** What [App] renders (lines 343-467) *)

(** The interactive parts of the view of a logged-in user. *)
Record main_view : Type := mkMain {
  (** [Logged in as {user.username}] *)
  shown_username : completion value;
  (** the Logout button *)
  logout_button : M unit;
  (** the sidebar *)
  sidebar : completion (list (history_item (M async)));
  (** the "+ New Game" button and its [disabled] attribute *)
  new_game_button : M async;
  new_game_disabled : bool;
  (** the cells *)
  cells : completion (list (button (M async)));
  (** the overlay *)
  overlay : completion (result_card (M async))
}.

(** The login form with its properties, or the main view. *)
Inductive view : Type :=
| AuthView (onAuth : string → bool → M async) (error : string) (loading : bool)
| MainView (main : main_view).

Section Views.
Context `{Runtime}.

(** The [<GameResult ... />] element of [App] (lines 446-451). *)
Definition App_GameResult (s : AppState) : completion (result_card (M async)) :=
  GameResult (result s)
             (if negb (strict_eq (result s) (VStr "draw")) then result s else VNull)
             (winLine s)
             startNewGame.

(** The [<MatchHistory ... />] element of [App] (lines 389-393). *)
Definition App_MatchHistory (s : AppState)
  : completion (list (history_item (M async))) :=
  MatchHistory (history s) (gameId s) joinGame.

Definition App (s : AppState) : view :=
  (* [if (!user) { return ... <AuthForm ... /> ... }] *)
  if negb (truthy (user s))
  then AuthView handleAuth (authError s) (authLoading s)
  else MainView
         {| shown_username := get_prop (user s) "username" ≫= render_child;
            logout_button := logout;
            sidebar := App_MatchHistory s;
            new_game_button := startNewGame;
            new_game_disabled := fetching s;
            cells := GameBoard (App_GameBoard s);
            overlay := App_GameResult s |}.

(** The cells on the page: none on the login form, and none when the
    render of a part of the main view throws, which takes the whole
    page down. *)
Definition page_cells (v : view) : list (button (M async)) :=
  match v with
  | AuthView _ _ _ => []
  | MainView main =>
      match shown_username main, sidebar main, cells main, overlay main with
      | Normal _, Normal _, Normal buttons, Normal _ => buttons
      | _, _, _, _ => []
      end
  end.

(** ** Events *)

(** What can happen to the page: a handler is started by the user or by
    an effect, or a suspended handler is resumed with the outcome of its
    request. *)
Inductive event : Type :=
| Mounted
| ThemeToggled
| AuthSubmitted (username : string) (signup : bool)
| AuthAnswered (username : string) (o : fetch_outcome)
| LoggedOut
| NewGameAsked
| NewGameAnswered (o : fetch_outcome)
| GameSelected (id : value)
| GameSelectedAnswered (o : fetch_outcome)
| CellPlayed (cellIdx : nat)
| CellPlayedAnswered (o : fetch_outcome)
| GameLoaded (id : value)
| GameLoadedAnswered (o : fetch_outcome)
| HistoryAsked
| HistoryAnswered (o : fetch_outcome).

(** The world after an event; an exception that escapes a handler
    leaves the state the handler has reached. *)
Definition after (ev : event) (w : World) : World :=
  match ev with
  | Mounted => snd (loadUser w)
  | ThemeToggled => snd (toggleTheme w)
  | AuthSubmitted username signup => snd (handleAuth username signup w)
  | AuthAnswered username o => snd (handleAuth_resume username o w)
  | LoggedOut => snd (logout w)
  | NewGameAsked => snd (startNewGame w)
  | NewGameAnswered o => snd (startNewGame_resume o w)
  | GameSelected id => snd (joinGame id w)
  | GameSelectedAnswered o => snd (joinGame_resume o w)
  | CellPlayed cellIdx => snd (playMove cellIdx w)
  | CellPlayedAnswered o => snd (playMove_resume o w)
  | GameLoaded id => snd (fetchGame id w)
  | GameLoadedAnswered o => snd (fetchGame_resume o w)
  | HistoryAsked => snd (fetchMatchHistory w)
  | HistoryAnswered o => snd (fetchMatchHistory_resume o w)
  end.

(** The world after a sequence of events, oldest first. *)
Definition after_all (evs : list event) (w : World) : World :=
  foldl (λ w ev, after ev w) w evs.

End Views.

(** ** Notions used in the further statements *)

(** The other mark. *)
Definition swap_mark (c : cell) : cell :=
  match c with
  | empty => empty
  | markA => markB
  | markB => markA
  end.

(** What the page keeps true of its state. *)
Definition well_kept (s : AppState) : Prop :=
  (result s = VNull ∨ truthy (result s) = true) ∧
  (winLine s = VNull ∨ truthy (winLine s) = true) ∧
  truthy (history s) = true ∧
  (theme s = "light" ∨ theme s = "dark").

(** A platform whose JSON functions are inverse to each other on the
    sessions the login fallback makes: such a session is written as its
    username and read back from it. *)
Definition session_runtime : Runtime :=
  {| REACT_APP_API_BASE := None;
     JSON_stringify := λ v, match v with
                            | VObj [(_, VStr name); _] => name
                            | _ => ""
                            end;
     JSON_parse := λ text, Normal (VObj [("id", VStr text); ("username", VStr text)]);
     ToString := λ v, match v with VStr s => s | _ => "" end;
     TypeError_message := λ _ _, "TypeError";
     ChildError_message := λ _, "Objects are not valid as a React child" |}.

(** ** Further concrete inputs *)




(** An answer that is an empty object. *)
Definition empty_object_response : fetch_outcome :=
  Responded true (Normal (VObj [])).

(** A login without backend, a new game, then the move that wins it. *)
Definition sample_events : list event :=
  [AuthSubmitted "ann" false; AuthAnswered "ann" no_backend;
   NewGameAsked; NewGameAnswered new_game_response;
   CellPlayed 1; CellPlayedAnswered won_response].

(** A browser whose storage already holds a key of another page. *)
Definition world_with_other_key : World :=
  {| app := initialApp; localStorage := {["other" := "kept"]} |}.

(** * Properties *)

Ltac unfold_M :=
  unfold mbind, M_bind, mret, M_ret, completion_bind, completion_ret,
    bind, ret, lift, throw, try_catch, when, modify_app, read_app,
    localStorage_setItem, localStorage_removeItem, localStorage_getItem in *.

(** ** Pure computations *)

Lemma pure_ret {A} (a : A) : pure (ret a).
Proof. by exists (Normal a). Qed.

Lemma pure_lift {A} (c : completion A) : pure (lift c).
Proof. by exists c. Qed.

Lemma pure_bind {A B} (m : M A) (f : A → M B) :
  pure m → (∀ a, pure (f a)) → pure (m ≫= f).
Proof.
  intros [r Hm] Hf. destruct r as [a|e].
  - destruct (Hf a) as [r' Hr']. exists r'. intros w.
    unfold_M. by rewrite Hm.
  - exists (Throw e). intros w. unfold_M. by rewrite Hm.
Qed.

Lemma line_test_pure board l : pure (line_test board l).
Proof.
  destruct l as [[a b] c]. unfold line_test.
  apply pure_bind; [apply pure_lift|]. intros x.
  destruct (truthy x); [|apply pure_ret].
  apply pure_bind; [apply pure_lift|]. intros x1.
  apply pure_bind; [apply pure_lift|]. intros y.
  destruct (strict_eq x1 y); [|apply pure_ret].
  apply pure_bind; [apply pure_lift|]. intros x2.
  apply pure_bind; [apply pure_lift|]. intros z.
  apply pure_ret.
Qed.

Lemma getWinLine_from_pure lines board : pure (getWinLine_from lines board).
Proof.
  induction lines as [|l ls IH]; simpl.
  - apply pure_ret.
  - apply pure_bind; [apply line_test_pure|].
    intros [|]; [apply pure_ret | apply IH].
Qed.

Lemma getWinLine_pure board : pure (getWinLine board).
Proof. apply getWinLine_from_pure. Qed.

(** ** [getWinLine] on arrays *)

Lemma line_test_array cells l w :
  line_test (VArr cells) l w = (Normal (line_wins cells l), w).
Proof.
  destruct l as [[a b] c]. unfold line_test, line_wins. unfold_M. simpl.
  fold (cell_at cells a) (cell_at cells b) (cell_at cells c).
  destruct (truthy (cell_at cells a)); [|done]. simpl.
  by destruct (strict_eq (cell_at cells a) (cell_at cells b)).
Qed.

Lemma getWinLine_from_array lines cells w :
  getWinLine_from lines (VArr cells) w
  = (Normal (from_option line_value VNull (find (line_wins cells) lines)), w).
Proof.
  induction lines as [|l ls IH]; simpl; [done|].
  unfold mbind, M_bind, bind. rewrite line_test_array.
  destruct (line_wins cells l); [done | apply IH].
Qed.

Lemma getWinLine_array cells w :
  getWinLine (VArr cells) w
  = (Normal (from_option line_value VNull (find (line_wins cells) WIN_LINES)), w).
Proof. apply getWinLine_from_array. Qed.

Lemma strict_eq_true x y : strict_eq x y = true → x = y.
Proof.
  destruct x, y; simpl; try done; intros E.
  - by apply Bool.eqb_prop in E as ->.
  - by apply Z.eqb_eq in E as ->.
  - by apply String.eqb_eq in E as ->.
Qed.

Lemma truthy_cell_at cells i :
  truthy (cell_at cells i) = true → cells !! i = Some (cell_at cells i).
Proof. unfold cell_at. by destruct (cells !! i). Qed.

Lemma line_wins_cells cells a b c :
  line_wins cells (a, b, c) = true →
  ∃ m, truthy m = true ∧
       cells !! a = Some m ∧ cells !! b = Some m ∧ cells !! c = Some m.
Proof.
  unfold line_wins. intros E.
  apply andb_prop in E as [E Hc]. apply andb_prop in E as [Ht Hb].
  apply strict_eq_true in Hb, Hc.
  exists (cell_at cells a). split; [done|].
  split; [by apply truthy_cell_at|].
  split; [rewrite Hb | rewrite Hc]; apply truthy_cell_at; congruence.
Qed.

Lemma find_first {A} (f : A → bool) (before after : list A) x :
  f x = true → (∀ y, y ∈ before → f y = false) →
  find f (before ++ x :: after) = Some x.
Proof.
  intros Hx. induction before as [|y ys IH]; intros Hb; simpl.
  - by rewrite Hx.
  - rewrite Hb; [|left]. apply IH. intros z Hz. apply Hb. by right.
Qed.

Lemma find_nowhere {A} (f : A → bool) (l : list A) :
  (∀ y, y ∈ l → f y = false) → find f l = None.
Proof.
  induction l as [|y ys IH]; intros Hl; simpl; [done|].
  rewrite Hl; [|left]. apply IH. intros z Hz. apply Hl. by right.
Qed.

Lemma line_wins_complete (b : list cell) l :
  line_wins (cell_value <$> b) l = true ↔ complete b l.
Proof.
  destruct l as [[i j] k]. unfold line_wins, complete, complete_with, cell_at.
  rewrite !list_lookup_fmap.
  destruct (b !! i) as [[]|], (b !! j) as [[]|], (b !! k) as [[]|];
    simpl; (split; [try done; intros _; eexists; repeat split; done
                   | intros (m & Hm & ? & ? & ?); try done; simplify_eq; done]).
Qed.

Lemma line_wins_incomplete (b : list cell) l :
  ¬ complete b l → line_wins (cell_value <$> b) l = false.
Proof.
  intros Hn. destruct (line_wins _ l) eqn:E; [|done].
  by apply line_wins_complete in E.
Qed.

Lemma elem_of_WIN_LINES_lt a b c :
  (a, b, c) ∈ WIN_LINES → (a < 9 ∧ b < 9 ∧ c < 9)%nat.
Proof.
  unfold WIN_LINES. rewrite !elem_of_cons, elem_of_nil.
  intros H; destruct_or!; simplify_eq; lia.
Qed.

Lemma cell_at_nine_cells cells i :
  (i < 9)%nat → cell_at (nine_cells cells) i = cell_at cells i.
Proof.
  intros Hi. unfold cell_at, nine_cells. rewrite lookup_take_lt by done.
  destruct (decide (i < length cells)%nat) as [Hlt|Hge].
  - by rewrite lookup_app_l.
  - rewrite lookup_app_r by lia.
    rewrite lookup_replicate_2 by lia.
    by rewrite lookup_ge_None_2 by lia.
Qed.

Lemma line_wins_nine_cells cells l :
  l ∈ WIN_LINES → line_wins (nine_cells cells) l = line_wins cells l.
Proof.
  destruct l as [[a b] c]. intros (Ha & Hb & Hc)%elem_of_WIN_LINES_lt.
  unfold line_wins. by rewrite !cell_at_nine_cells.
Qed.

Lemma find_agree {A} (f g : A → bool) (l : list A) :
  (∀ x, x ∈ l → f x = g x) → find f l = find g l.
Proof.
  induction l as [|x xs IH]; intros Hl; simpl; [done|].
  rewrite (Hl x) by left. destruct (g x); [done|].
  apply IH. intros y Hy. apply Hl. by right.
Qed.

Lemma no_complete_by_test (b : list cell) :
  forallb (λ l, negb (line_wins (cell_value <$> b) l)) WIN_LINES = true →
  ∀ l, l ∈ WIN_LINES → ¬ complete b l.
Proof.
  intros Hall l Hl Hc. apply line_wins_complete in Hc.
  rewrite forallb_forall in Hall.
  apply list_elem_of_In, Hall in Hl. by rewrite Hc in Hl.
Qed.

(** ** C1: what [getWinLine] returns on a board of the specification *)

(** C1, as the code has it.  On every board of nine cells, each empty,
    A or B, [getWinLine] returns the first triple of the fixed
    enumeration whose three cells hold the same mark, and [null] when no
    triple does, whether or not a cell is empty; it changes nothing.  On
    [A,A,A,empty,...] it returns [[0,1,2]]. *)
Theorem getWinLine_first_complete_line (b : list cell) (w : World) :
  length b = 9%nat →
  (∀ line, first_complete b line →
           getWinLine (board_value b) w = (Normal (line_value line), w)) ∧
  ((∀ l, l ∈ WIN_LINES → ¬ complete b l) →
   getWinLine (board_value b) w = (Normal VNull, w)) ∧
  getWinLine (board_value row_board) w
  = (Normal (VArr [VNum 0; VNum 1; VNum 2]), w).
Proof.
  intros _. unfold board_value. rewrite !getWinLine_array.
  split; [|split].
  - intros line (before & after & -> & Hc & Hb).
    rewrite find_first; [done | by apply line_wins_complete |].
    intros l Hl. by apply line_wins_incomplete, Hb.
  - intros Hn. rewrite find_nowhere; [done|].
    intros l Hl. by apply line_wins_incomplete, Hn.
  - reflexivity.
Qed.

Lemma getWinLine_first_complete_line_witness :
  length row_board = 9%nat ∧
  getWinLine (board_value row_board) initialWorld
  = (Normal (VArr [VNum 0; VNum 1; VNum 2]), initialWorld).
Proof.
  split; [reflexivity|].
  apply (getWinLine_first_complete_line row_board initialWorld).
  reflexivity.
Defined.

(** C1 as the specification words it fails: on a filled board without a
    complete triple [getWinLine] returns the same [null] as on a board
    with empty cells, so no reading of its result tells draw from none. *)
Lemma getWinLine_draw_is_null :
  getWinLine (board_value full_board) initialWorld = (Normal VNull, initialWorld) ∧
  getWinLine (board_value open_board) initialWorld = (Normal VNull, initialWorld) ∧
  ¬ ∃ decode : completion value → Outcome,
      outcome_contract
        (λ b, decode (fst (getWinLine (board_value b) initialWorld))).
Proof.
  split; [reflexivity|]. split; [reflexivity|].
  intros [decode Hd].
  destruct (Hd full_board eq_refl) as (_ & Hdraw & _).
  destruct (Hd open_board eq_refl) as (_ & _ & Hnone).
  assert (Hf : ∀ l, l ∈ WIN_LINES → ¬ complete full_board l)
    by (by apply no_complete_by_test).
  assert (Ho : ∀ l, l ∈ WIN_LINES → ¬ complete open_board l)
    by (by apply no_complete_by_test).
  specialize (Hdraw Hf). specialize (Hnone Ho).
  assert (He : empty ∉ full_board).
  { unfold full_board. rewrite !not_elem_of_cons. repeat split; try done.
    apply not_elem_of_nil. }
  assert (Hi : empty ∈ open_board) by (right; left).
  specialize (Hdraw He). specialize (Hnone Hi).
  simpl in Hdraw, Hnone. congruence.
Qed.

(** ** C2: boards of another length *)

(** C2, as the code has it.  On a sequence whose length is not 9
    [getWinLine] does not fail: it returns normally, changes nothing,
    and returns what it returns on the sequence cut after nine cells
    and filled up to nine cells with [undefined]. *)
Theorem getWinLine_any_length (cells : list value) (w : World) :
  length cells ≠ 9%nat →
  (∃ r, getWinLine (VArr cells) w = (Normal r, w)) ∧
  getWinLine (VArr cells) w = getWinLine (VArr (nine_cells cells)) w.
Proof.
  intros _. rewrite !getWinLine_array. split; [by eexists|].
  do 3 f_equal. apply find_agree. intros l Hl.
  symmetry. by apply line_wins_nine_cells.
Qed.

Lemma getWinLine_any_length_witness :
  length [X; X; X] ≠ 9%nat ∧
  (∃ r, getWinLine (VArr [X; X; X]) initialWorld = (Normal r, initialWorld)) ∧
  getWinLine (VArr [X; X; X]) initialWorld
  = getWinLine (VArr (nine_cells [X; X; X])) initialWorld.
Proof.
  split; [simpl; lia|].
  apply (getWinLine_any_length [X; X; X] initialWorld). simpl; lia.
Defined.

(** C2 as the specification words it fails: a sequence of three cells
    is accepted and a win line is returned. *)
Lemma getWinLine_short_board_returns :
  length [X; X; X] ≠ 9%nat ∧
  getWinLine (VArr [X; X; X]) initialWorld
  = (Normal (VArr [VNum 0; VNum 1; VNum 2]), initialWorld) ∧
  ¬ (∀ cells w, length cells ≠ 9%nat →
                ∃ e, fst (getWinLine (VArr cells) w) = Throw e).
Proof.
  split; [simpl; lia|]. split; [reflexivity|].
  intros Hall. destruct (Hall [X; X; X] initialWorld) as [e He]; [simpl; lia|].
  vm_compute in He. discriminate.
Qed.

(** ** C8: [getWinLine] is pure *)

(** C8.  For every board, [getWinLine] returns a result that depends on
    the board alone and leaves the world as it was; called twice in a
    row on the same board it gives the same result twice. *)
Theorem getWinLine_deterministic (board : value) :
  ∃ r,
    (∀ w, getWinLine board w = (r, w)) ∧
    (∀ w, getWinLine board (snd (getWinLine board w)) = (r, w)).
Proof.
  destruct (getWinLine_pure board) as [r Hr]. exists r.
  split; [done|]. intros w. by rewrite !Hr.
Qed.

(** ** C9: the result is null or a fixed triple of equal marks *)

(** C9.  On every array of nine cells [getWinLine] returns normally,
    either [null] or one of the eight triples of [WIN_LINES]; the three
    cells of a returned triple hold the same value, and that value is
    truthy: never an empty cell. *)
Theorem getWinLine_sound (cells : list value) (w : World) :
  length cells = 9%nat →
  ∃ r, getWinLine (VArr cells) w = (Normal r, w) ∧
       (r = VNull ∨
        ∃ a b c m, (a, b, c) ∈ WIN_LINES ∧ r = line_value (a, b, c) ∧
                   truthy m = true ∧
                   cells !! a = Some m ∧ cells !! b = Some m ∧
                   cells !! c = Some m).
Proof.
  intros _. rewrite getWinLine_array. eexists. split; [done|].
  destruct (find (line_wins cells) WIN_LINES) as [[[a b] c]|] eqn:F;
    simpl; [right | by left].
  apply find_some in F as [Hin Hw]. apply list_elem_of_In in Hin.
  apply line_wins_cells in Hw as (m & ? & ? & ? & ?).
  by exists a, b, c, m.
Qed.

Lemma getWinLine_sound_witness :
  length (cell_value <$> row_board) = 9%nat ∧
  ∃ r, getWinLine (VArr (cell_value <$> row_board)) initialWorld
       = (Normal r, initialWorld) ∧
       (r = VNull ∨
        ∃ a b c m, (a, b, c) ∈ WIN_LINES ∧ r = line_value (a, b, c) ∧
                   truthy m = true ∧
                   (cell_value <$> row_board) !! a = Some m ∧
                   (cell_value <$> row_board) !! b = Some m ∧
                   (cell_value <$> row_board) !! c = Some m).
Proof.
  split; [reflexivity|].
  apply (getWinLine_sound (cell_value <$> row_board) initialWorld).
  reflexivity.
Defined.

(** ** Strings *)

(** Indexing a string gives the string of the code unit at that
    position, and [undefined] past the end. *)
Lemma get_index_code_unit (s : string) (i : nat) :
  get_index (VStr s) i
  = Normal match code_units s !! i with
           | Some u => VStr (String (ascii_of_N u) "")
           | None => VUndefined
           end.
Proof.
  unfold code_units. simpl. f_equal.
  revert i. induction s as [|a s IH]; intros [|i]; simpl; try done.
  by rewrite ascii_N_embedding.
Qed.

(** ** The render of the board *)

Lemma highlighted_cases highlight idx :
  highlighted highlight idx
  = if can_highlight highlight
    then Normal (highlight_bit highlight idx)
    else Throw (TypeError highlight (Name "includes")).
Proof.
  unfold can_highlight, highlight_bit, highlighted.
  destruct (truthy highlight) eqn:Ht; simpl; [|done].
  by destruct highlight.
Qed.

Lemma GameBoard_cell_cases {R} (props : GameBoardProps R) idx cell :
  GameBoard_cell props idx cell
  = if can_highlight (highlight_prop props)
    then Normal {| btn_highlight := highlight_bit (highlight_prop props) idx;
                   btn_disabled := disabled_prop props || truthy cell;
                   btn_onClick := (λ onPlay, onPlay idx) <$> onPlay_prop props |}
    else Throw (TypeError (highlight_prop props) (Name "includes")).
Proof.
  unfold GameBoard_cell. rewrite highlighted_cases.
  by destruct (can_highlight (highlight_prop props)).
Qed.

Lemma map_completion_cells {R} (props : GameBoardProps R) (f : nat → nat)
    (l : list value) :
  map_completion (λ '(idx, cell), GameBoard_cell props idx cell)
                 (imap (λ i c, (f i, c)) l)
  = if can_highlight (highlight_prop props) || (length l =? 0)%nat
    then Normal
           (imap (λ i cell,
                    {| btn_highlight := highlight_bit (highlight_prop props) (f i);
                       btn_disabled := disabled_prop props || truthy cell;
                       btn_onClick := (λ onPlay, onPlay (f i)) <$> onPlay_prop props |})
                 l)
    else Throw (TypeError (highlight_prop props) (Name "includes")).
Proof.
  revert f. induction l as [|c l IH]; intros f; simpl.
  { by rewrite orb_true_r. }
  rewrite orb_false_r, GameBoard_cell_cases.
  destruct (can_highlight (highlight_prop props)) eqn:Hh; [|done].
  specialize (IH (f ∘ S)). simpl in IH.
  unfold_M. unfold compose in *. by rewrite IH.
Qed.

Lemma GameBoard_drawn {R} (props : GameBoardProps R) :
  GameBoard props
  = if can_highlight (highlight_prop props)
       || (length (board_prop props) =? 0)%nat
    then Normal (drawn_buttons props)
    else Throw (TypeError (highlight_prop props) (Name "includes")).
Proof. apply (map_completion_cells props id). Qed.

Lemma click_drawn {R} (props : GameBoardProps R) idx :
  click (drawn_buttons props) idx
  = match board_prop props !! idx, onPlay_prop props with
    | Some c, Some onPlay =>
        if disabled_prop props || truthy c then None else Some (onPlay idx)
    | _, _ => None
    end.
Proof.
  unfold drawn_buttons, click. rewrite list_lookup_imap.
  destruct (board_prop props !! idx) as [c|]; simpl; [|done].
  destruct (onPlay_prop props); simpl;
    by destruct (disabled_prop props || truthy c).
Qed.

Lemma click_on_screen {R} (props : GameBoardProps R) idx :
  click (on_screen (GameBoard props)) idx
  = if can_highlight (highlight_prop props)
    then click (drawn_buttons props) idx
    else None.
Proof.
  rewrite GameBoard_drawn.
  destruct (can_highlight (highlight_prop props)); simpl; [done|].
  destruct (board_prop props) as [|c l] eqn:Hb; simpl; [|done].
  unfold drawn_buttons. by rewrite Hb.
Qed.

Section HandlerProperties.
Context `{Runtime}.

(** ** C10: [playMove] without a game or a user *)

(** C10.  For every cell index, when [gameId] or [user] is not set
    (falsy), [playMove] returns at once: no request is started and the
    component state, board, game, result, win line, fetching flag and
    message included, is exactly what it was. *)
Theorem playMove_without_game_or_user (cellIdx : nat) (w : World) :
  truthy (gameId (app w)) = false ∨ truthy (user (app w)) = false →
  playMove cellIdx w = (Normal Done, w).
Proof.
  intros Hfalsy. unfold playMove. unfold_M.
  destruct Hfalsy as [-> | ->]; simpl; [done|].
  by rewrite orb_true_r.
Qed.

(** ** C4: when a cell can be clicked *)


(** ** C6: authentication when the backend call fails *)

(** C6.  For every username and both endpoints, [handleAuth] suspends on
    the call to [/users/login] or [/users/signup]; when that call fails,
    the handler completes normally, sets no error, and the session it
    establishes has the username it was given as [id] and as
    [username]. *)
Theorem handleAuth_falls_back (username : string) (o : fetch_outcome) (e : exn)
    (w : World) :
  apiFetch_result o = Throw e →
  let session := VObj [("id", VStr username); ("username", VStr username)] in
  (∀ signup w0, ∃ w1 options,
      handleAuth username signup w0
      = (Normal (Await (API_BASE ++ (if signup then "/users/signup"
                                     else "/users/login"))
                   options (handleAuth_resume username)), w1)) ∧
  handleAuth_resume username o w
  = (Normal tt,
     {| app := setAuthLoading false (setUser session (app w));
        localStorage := <["ttt-user" := JSON_stringify session]> (localStorage w) |}) ∧
  get_prop (user (app (snd (handleAuth_resume username o w)))) "id"
  = Normal (VStr username) ∧
  get_prop (user (app (snd (handleAuth_resume username o w)))) "username"
  = Normal (VStr username) ∧
  authError (app (snd (handleAuth_resume username o w))) = authError (app w).
Proof.
  intros Hfail session.
  assert (Hrun : handleAuth_resume username o w
    = (Normal tt,
       {| app := setAuthLoading false (setUser session (app w));
          localStorage := <["ttt-user" := JSON_stringify session]> (localStorage w) |})).
  { unfold handleAuth_resume. unfold_M. by rewrite Hfail. }
  split; [|rewrite Hrun; by repeat split].
  intros signup w0. unfold handleAuth. unfold_M. by eexists _, _.
Qed.

(** ** C7: logout and the persisted key *)

(** C7, as the code has it.  From any state, logout sets [user] to
    [null] and removes the key [ttt-user] from [localStorage]; every
    other state cell (game id, game, board, result, win line, history,
    message) and every other key stays as it was.  Login writes that
    key, and only it, with the serialized session it has just set. *)
Theorem logout_clears_user_only (w : World) :
  logout w
  = (Normal tt,
     {| app := setUser VNull (app w);
        localStorage := delete "ttt-user" (localStorage w) |}) ∧
  user (app (snd (logout w))) = VNull ∧
  (let s' := app (snd (logout w)) in
   gameId s' = gameId (app w) ∧ game s' = game (app w) ∧
   playing s' = playing (app w) ∧ board s' = board (app w) ∧
   winLine s' = winLine (app w) ∧ result s' = result (app w) ∧
   history s' = history (app w) ∧ msg s' = msg (app w)) ∧
  localStorage (snd (logout w)) !! "ttt-user" = None ∧
  (∀ k, k ≠ "ttt-user" →
        localStorage (snd (logout w)) !! k = localStorage w !! k) ∧
  (∀ username o w0,
     let w1 := snd (handleAuth_resume username o w0) in
     localStorage w1
     = <["ttt-user" := JSON_stringify (user (app w1))]> (localStorage w0)).
Proof.
  split; [done|]. split; [done|]. split; [by repeat split|].
  split; [|split].
  - simpl. apply lookup_delete_eq.
  - intros k Hk. simpl. by apply lookup_delete_ne.
  - intros username o w0. unfold handleAuth_resume. unfold_M.
    by destruct (apiFetch_result o).
Qed.

(** ** Reading a response *)

Lemma get_prop_defined res p v q :
  get_prop res p = Normal v → ∃ v', get_prop res q = Normal v'.
Proof. destruct res; simpl; try done; by eexists. Qed.

Lemma snapshot_cases res cells :
  snapshot res = Normal cells →
  cells = emptyBoard ∨ get_prop res "state" = Normal (VArr cells).
Proof.
  unfold snapshot. unfold_M.
  destruct (get_prop res "state") as [state|]; [|done].
  destruct (truthy state && isArray state) eqn:E;
    [destruct state|]; intros; simplify_eq; auto.
Qed.

Lemma snapshot_defined res p v :
  get_prop res p = Normal v → ∃ cells, snapshot res = Normal cells.
Proof.
  intros Hp. destruct (get_prop_defined res p v "state" Hp) as [state Hs].
  unfold snapshot. unfold_M. rewrite Hs.
  destruct (truthy state && isArray state); [destruct state|]; by eexists.
Qed.

Lemma win_line_of_pure res : pure (win_line_of res).
Proof.
  unfold win_line_of. apply pure_bind; [apply pure_lift|]. intros win_line.
  destruct (truthy win_line); [apply pure_ret|].
  apply pure_bind; [apply pure_lift|]. intros state. apply getWinLine_pure.
Qed.

Lemma result_of_winner winner : result_of winner = winner.
Proof.
  unfold result_of. destruct (strict_eq winner (VStr "draw")) eqn:E; [|done].
  by apply strict_eq_true in E.
Qed.

Lemma falsy_values v :
  truthy v = false →
  v = VUndefined ∨ v = VNull ∨ v = VBool false ∨ v = VNum 0 ∨ v = VStr "".
Proof.
  destruct v as [| |[]|n|s| |]; simpl; try done; auto.
  - intros E%negb_false_iff%Z.eqb_eq. subst. auto.
  - intros E%negb_false_iff%String.eqb_eq. subst. auto 6.
Qed.

(** ** C3: the board is replaced wholesale *)



(** The synchronous part of these handlers leaves the board alone. *)
Lemma board_kept_until_response (w : World) :
  board (app (snd (startNewGame w))) = board (app w) ∧
  (∀ id, board (app (snd (joinGame id w))) = board (app w)) ∧
  (∀ idx, board (app (snd (playMove idx w))) = board (app w)) ∧
  (∀ id, board (app (snd (fetchGame id w))) = board (app w)).
Proof.
  split; [|split; [|split]].
  - unfold startNewGame. unfold_M. simpl. by destruct (player_of _).
  - done.
  - intros idx. unfold playMove. unfold_M. simpl.
    destruct (negb _ || negb _); [done|]. simpl. by destruct (player_of _).
  - done.
Qed.

(** ** C5: the server's outcome has priority *)

(** C5, as the code has it.  When the response to a move or to a game
    load reports a concluded game (a truthy [winner]), the result shown
    is that [winner]; the win line shown is the server's [win_line]
    whenever one is present (any truthy value, so any array), and the
    line derived by [getWinLine] from the server's [state] is used only
    when [win_line] is absent ([undefined], [null] or another falsy
    value).  The same response in answer to "new game" or to a game
    selection is read for neither: result and win line are then
    [null]. *)
Theorem server_outcome_has_priority (k : fetch_outcome → M unit)
    (o : fetch_outcome) (res winner : value) (w : World) :
  k = playMove_resume ∨ k = fetchGame_resume →
  apiFetch_result o = Normal res →
  get_prop res "winner" = Normal winner →
  truthy winner = true →
  let s' := app (snd (k o w)) in
  result s' = winner ∧
  ∃ win_line state,
    get_prop res "win_line" = Normal win_line ∧
    get_prop res "state" = Normal state ∧
    (truthy win_line = true → winLine s' = win_line) ∧
    (isArray win_line = true → winLine s' = win_line) ∧
    (truthy win_line = false →
     (win_line = VUndefined ∨ win_line = VNull ∨ win_line = VBool false ∨
      win_line = VNum 0 ∨ win_line = VStr "") ∧
     match fst (getWinLine state w) with
     | Normal line => winLine s' = line
     | Throw _ => winLine s' = winLine (app w)
     end) ∧
    result (app (snd (startNewGame_resume o w))) = VNull ∧
    winLine (app (snd (startNewGame_resume o w))) = VNull ∧
    result (app (snd (joinGame_resume o w))) = VNull ∧
    winLine (app (snd (joinGame_resume o w))) = VNull.
Proof.
  intros Hk Hres Hwinner Htruthy s'.
  assert (Hreset :
    result (app (snd (startNewGame_resume o w))) = VNull ∧
    winLine (app (snd (startNewGame_resume o w))) = VNull ∧
    result (app (snd (joinGame_resume o w))) = VNull ∧
    winLine (app (snd (joinGame_resume o w))) = VNull).
  { destruct (get_prop_defined res "winner" winner "id" Hwinner) as [id Hid].
    destruct (snapshot_defined res "winner" winner Hwinner) as [cells0 Hsnap0].
    unfold startNewGame_resume, joinGame_resume. unfold_M.
    by rewrite Hres, Hid, Hsnap0. }
  destruct (get_prop_defined res "winner" winner "win_line" Hwinner)
    as [win_line Hwl].
  destruct (get_prop_defined res "winner" winner "state" Hwinner)
    as [state Hst].
  destruct (snapshot_defined res "winner" winner Hwinner) as [cells Hsnap].
  destruct (getWinLine_pure state) as [line Hline].
  assert (Hrun :
    result s' = winner ∧
    (truthy win_line = true → winLine s' = win_line) ∧
    (truthy win_line = false →
     match line with
     | Normal l => winLine s' = l
     | Throw _ => winLine s' = winLine (app w)
     end)).
  { subst s'. destruct Hk; subst k;
      unfold playMove_resume, fetchGame_resume, win_line_of; unfold_M;
      rewrite Hres; simpl; rewrite Hsnap; simpl; rewrite Hwinner; simpl;
      rewrite Htruthy; simpl; rewrite Hwl; simpl;
      (destruct (truthy win_line) eqn:Hw; simpl;
       [ rewrite ?Hwinner; simpl; by rewrite result_of_winner
       | rewrite Hst; simpl; rewrite Hline; destruct line; simpl;
         rewrite ?Hwinner; simpl; by rewrite result_of_winner ]). }
  destruct Hrun as (Hresult & Hserver & Hlocal).
  split; [done|]. exists win_line, state.
  split; [done|]. split; [done|]. split; [done|]. split; [|split; [|done]].
  - intros Harr. apply Hserver. by destruct win_line.
  - intros Hfalsy. split; [by apply falsy_values|].
    rewrite Hline. simpl. by apply Hlocal.
Qed.

End HandlerProperties.

(** ** Instances on concrete inputs *)

Lemma playMove_without_game_or_user_witness :
  (truthy (gameId (app initialWorld)) = false ∨
   truthy (user (app initialWorld)) = false) ∧
  @playMove plain_runtime 4 initialWorld = (Normal Done, initialWorld).
Proof.
  split; [left; reflexivity|].
  apply (@playMove_without_game_or_user plain_runtime 4 initialWorld).
  left; reflexivity.
Defined.


Lemma handleAuth_falls_back_witness :
  apiFetch_result no_backend = Throw (FetchError "Failed to fetch") ∧
  user (app (snd (@handleAuth_resume plain_runtime "ann" no_backend initialWorld)))
  = VObj [("id", VStr "ann"); ("username", VStr "ann")].
Proof.
  split; [reflexivity|].
  destruct (@handleAuth_falls_back plain_runtime "ann" no_backend
              (FetchError "Failed to fetch") initialWorld eq_refl)
    as (_ & Hrun & _).
  rewrite Hrun. reflexivity.
Defined.


Lemma server_outcome_has_priority_witness :
  apiFetch_result won_response = Normal won_game ∧
  get_prop won_game "winner" = Normal X ∧
  truthy X = true ∧
  result (app (snd (@playMove_resume plain_runtime won_response game_in_progress)))
  = X.
Proof.
  split; [reflexivity|]. split; [reflexivity|]. split; [reflexivity|].
  apply (@server_outcome_has_priority plain_runtime
           (@playMove_resume plain_runtime) won_response won_game X
           game_in_progress);
    [left; reflexivity | reflexivity | reflexivity | reflexivity].
Defined.

(** ** Where the code departs from the specification's wording *)



(** C5 as the specification words it fails: the answer to a game
    selection reports that X has won on the first row, and result and
    win line are [null]. *)
Lemma joinGame_ignores_outcome :
  apiFetch_result won_response = Normal won_game ∧
  get_prop won_game "winner" = Normal X ∧
  get_prop won_game "win_line" = Normal (VArr [VNum 0; VNum 1; VNum 2]) ∧
  result (app (snd (@joinGame_resume plain_runtime won_response
                      game_in_progress))) = VNull ∧
  winLine (app (snd (@joinGame_resume plain_runtime won_response
                       game_in_progress))) = VNull ∧
  ¬ (∀ (k : fetch_outcome → M unit) o res winner w,
       k = @startNewGame_resume plain_runtime ∨
       k = @joinGame_resume plain_runtime ∨
       k = @playMove_resume plain_runtime ∨
       k = @fetchGame_resume plain_runtime →
       apiFetch_result o = Normal res →
       get_prop res "winner" = Normal winner →
       truthy winner = true →
       result (app (snd (k o w))) = winner).
Proof.
  split; [reflexivity|]. split; [reflexivity|]. split; [reflexivity|].
  split; [reflexivity|]. split; [reflexivity|].
  intros Hall.
  specialize (Hall (@joinGame_resume plain_runtime) won_response won_game X
                   game_in_progress (or_intror (or_introl eq_refl))
                   eq_refl eq_refl eq_refl).
  vm_compute in Hall. discriminate.
Qed.

(** C7 as the specification words it fails: after logout the game that
    was being played is still in the component state. *)
Lemma logout_keeps_game_state :
  gameId (app (snd (logout game_in_progress))) = VNum 7 ∧
  playing (app (snd (logout game_in_progress))) = true ∧
  board (app (snd (logout game_in_progress)))
  = [X; VNull; VNull; VNull; VNull; VNull; VNull; VNull; VNull] ∧
  ¬ (∀ w, game_state_discarded (app (snd (logout w)))).
Proof.
  split; [reflexivity|]. split; [reflexivity|]. split; [reflexivity|].
  intros Hall. destruct (Hall game_in_progress) as [Hid _].
  vm_compute in Hid. discriminate.
Qed.

(** * Further properties of the code *)

(** ** [getWinLine] on values that are not boards *)

Lemma line_test_indexable board l w :
  (∀ i, ∃ x, get_index board i = Normal x) →
  ∃ hit, line_test board l w = (Normal hit, w).
Proof.
  intros Hget. destruct l as [[a b] c]. unfold line_test. unfold_M.
  destruct (Hget a) as [x ->]. destruct (truthy x); [|by eexists].
  destruct (Hget b) as [y ->]. destruct (strict_eq x y); [|by eexists].
  destruct (Hget c) as [z ->]. by eexists.
Qed.

Lemma getWinLine_from_indexable lines board w :
  (∀ i, ∃ x, get_index board i = Normal x) →
  ∃ r, getWinLine_from lines board w = (Normal r, w) ∧
       (r = VNull ∨ ∃ l, l ∈ lines ∧ r = line_value l).
Proof.
  intros Hget. induction lines as [|l ls IH]; simpl.
  - exists VNull. split; [done | by left].
  - destruct (line_test_indexable board l w Hget) as [hit Hhit].
    unfold mbind, M_bind, bind. rewrite Hhit. destruct hit.
    + exists (line_value l). split; [done|]. right. exists l. split; [left | done].
    + destruct IH as (r & Hr & Hcases). exists r. split; [done|].
      destruct Hcases as [->|(l' & Hl' & ->)]; [by left|].
      right. exists l'. split; [by right | done].
Qed.

(** X1.  [getWinLine] throws on [undefined] and on [null], at the first cell
    it reads, and on nothing else: on every other value, an array, a
    string, an object, a number, a boolean, it returns [null] or one of
    the eight triples, and changes nothing. *)
Theorem getWinLine_throws_only_without_board (board : value) (w : World) :
  match board with
  | VUndefined | VNull =>
      getWinLine board w = (Throw (TypeError board (Index 0)), w)
  | _ =>
      ∃ r, getWinLine board w = (Normal r, w) ∧
           (r = VNull ∨ ∃ l, l ∈ WIN_LINES ∧ r = line_value l)
  end.
Proof.
  destruct board; try reflexivity;
    apply getWinLine_from_indexable; intros i; simpl; by eexists.
Qed.

(** ** Symmetry and persistence of a win *)

Lemma line_wins_swap_mark (b : list cell) l :
  line_wins (cell_value <$> (swap_mark <$> b)) l
  = line_wins (cell_value <$> b) l.
Proof.
  destruct l as [[i j] k]. unfold line_wins, cell_at.
  rewrite !list_lookup_fmap.
  by destruct (b !! i) as [[]|], (b !! j) as [[]|], (b !! k) as [[]|].
Qed.

(** X2.  The line [getWinLine] returns does not depend on who holds which
    mark: exchanging A and B on the whole board gives the same result. *)
Theorem getWinLine_mark_symmetric (b : list cell) (w : World) :
  getWinLine (board_value (swap_mark <$> b)) w
  = getWinLine (board_value b) w.
Proof.
  unfold board_value. rewrite !getWinLine_array. do 3 f_equal.
  apply find_agree. intros l _. apply line_wins_swap_mark.
Qed.

Lemma complete_after_move (b : list cell) i m l :
  b !! i = Some empty → complete b l → complete (<[i:=m]> b) l.
Proof.
  destruct l as [[x y] z]. intros Hi (c & Hc & Hx & Hy & Hz).
  exists c. split; [done|].
  repeat split; (rewrite list_lookup_insert_ne; [done|]); intros ->; congruence.
Qed.

Lemma find_finds {A} (f : A → bool) (l : list A) x :
  x ∈ l → f x = true → ∃ y, find f l = Some y.
Proof.
  induction l as [|z zs IH]; intros Hin Hx; [by apply elem_of_nil in Hin|].
  simpl. destruct (f z) eqn:Hz; [by eexists|].
  apply elem_of_cons in Hin as [->|Hin]; [congruence | by apply IH].
Qed.

(** X3.  A win is not lost by a later move: when [getWinLine] finds a line on
    a board, it still finds one after any mark is put on an empty
    cell. *)
Theorem win_survives_move (b : list cell) (i : nat) (m : cell) (w : World) :
  b !! i = Some empty →
  (∃ l, l ∈ WIN_LINES ∧
        getWinLine (board_value b) w = (Normal (line_value l), w)) →
  ∃ l', l' ∈ WIN_LINES ∧
        getWinLine (board_value (<[i:=m]> b)) w = (Normal (line_value l'), w).
Proof.
  intros Hi (l & Hl & Hwin). unfold board_value in *.
  rewrite getWinLine_array in *.
  destruct (find (line_wins (cell_value <$> b)) WIN_LINES) as [l0|] eqn:F.
  2:{ simpl in Hwin. destruct l as [[? ?] ?]. simplify_eq. }
  apply find_some in F as [Hin Hw]. apply list_elem_of_In in Hin.
  apply line_wins_complete in Hw.
  apply (complete_after_move b i m l0 Hi), line_wins_complete in Hw.
  destruct (find_finds _ _ l0 Hin Hw) as [l' Hl'].
  exists l'. split.
  - apply find_some in Hl' as [Hin' _]. by apply list_elem_of_In.
  - by rewrite Hl'.
Qed.

Lemma win_survives_move_witness :
  row_board !! 3%nat = Some empty ∧
  ∃ l', l' ∈ WIN_LINES ∧
        getWinLine (board_value (<[3%nat:=markB]> row_board)) initialWorld
        = (Normal (line_value l'), initialWorld).
Proof.
  split; [reflexivity|].
  apply (win_survives_move row_board 3 markB initialWorld); [reflexivity|].
  exists (0, 1, 2)%nat. split; [left | reflexivity].
Defined.

(** ** The board component on any properties *)


(** ** [apiFetch] on an error response *)

(** X5.  A response that is not [ok] never yields a value: [apiFetch] throws
    an error made of the [detail] of the body, else of its [message],
    else of ['API Error']; a body that is not JSON, or is JSON but not
    an object, gives ['API Error'], and the body [null] makes the read
    of [detail] itself fail. *)
Theorem apiFetch_error_response (json : completion value) :
  ∃ e, apiFetch_result (Responded false json) = Throw e ∧
       match json with
       | Throw _ => e = ApiError (VStr "API Error")
       | Normal (VObj fields) =>
           e = ApiError
                 (if truthy (obj_lookup "detail" fields)
                  then obj_lookup "detail" fields
                  else if truthy (obj_lookup "message" fields)
                       then obj_lookup "message" fields
                       else VStr "API Error")
       | Normal VUndefined => e = TypeError VUndefined (Name "detail")
       | Normal VNull => e = TypeError VNull (Name "detail")
       | Normal _ => e = ApiError (VStr "API Error")
       end.
Proof.
  destruct json as [[]|]; simpl; try (by eexists).
  unfold_M. simpl.
  destruct (truthy (obj_lookup "detail" fields)); [by eexists|].
  destruct (truthy (obj_lookup "message" fields)); by eexists.
Qed.

(** One goal per handler of a list of four. *)
Ltac each_of_four :=
  apply List.Forall_cons; [|apply List.Forall_cons; [|apply List.Forall_cons;
    [|apply List.Forall_cons; [|apply List.Forall_nil]]]].

Section FurtherHandlerProperties.
Context `{Runtime}.

(** ** Helpers *)

Lemma get_prop_opt_defined u p : ∃ v, get_prop_opt u p = Normal v.
Proof. destruct u; simpl; by eexists. Qed.

Lemma player_of_defined u : ∃ p, player_of u = Normal p.
Proof.
  unfold player_of. unfold_M.
  destruct (get_prop_opt_defined u "id") as [id ->].
  destruct (truthy id); [by eexists | apply get_prop_opt_defined].
Qed.


Lemma locked_by_result (s : AppState) idx :
  truthy (result s) = true →
  click (on_screen (GameBoard (App_GameBoard s))) idx = None.
Proof.
  intros Hr. rewrite click_on_screen, click_drawn. simpl. rewrite Hr.
  destruct (can_highlight (winLine s)); [|done].
  destruct (board s !! idx); [|done].
  destruct (playing s); [|done]. by rewrite orb_true_r.
Qed.

Lemma page_click (s : AppState) idx :
  click (page_cells (App s)) idx = None ∨
  click (page_cells (App s)) idx
  = click (on_screen (GameBoard (App_GameBoard s))) idx.
Proof.
  unfold page_cells, App. destruct (truthy (user s)); simpl; [|by left].
  destruct (get_prop (user s) "username" ≫= render_child); [|by left].
  destruct (App_MatchHistory s); [|by left].
  destruct (GameBoard (App_GameBoard s)); [|by left].
  destruct (App_GameResult s); [by right | by left].
Qed.

Lemma page_locked (s : AppState) idx :
  click (on_screen (GameBoard (App_GameBoard s))) idx = None →
  click (page_cells (App s)) idx = None.
Proof. intros Hno. destruct (page_click s idx) as [?|Heq]; congruence. Qed.


(** ** A request in flight *)


(** X7.  When the answer comes, whatever it is (a game state, an error
    response, a network failure, a body that is not a game state), each
    of the four handlers completes without an exception and clears
    [fetching]. *)
Theorem answer_releases_fetching (o : fetch_outcome) (w : World) :
  Forall (λ resume : fetch_outcome → M unit,
            fst (resume o w) = Normal tt ∧
            fetching (app (snd (resume o w))) = false)
         [startNewGame_resume; joinGame_resume; playMove_resume;
          fetchGame_resume].
Proof.
  each_of_four;
    unfold startNewGame_resume, joinGame_resume, playMove_resume,
      fetchGame_resume; unfold_M;
    (destruct (apiFetch_result o) as [res|e]; simpl; [|done]);
    try (destruct (get_prop res "id"); simpl; [|done]);
    try (destruct (snapshot res); simpl; [|done]);
    try done;
    (destruct (get_prop res "winner") as [winner|]; simpl; [|done]);
    try (destruct (truthy winner); simpl; [|done]);
    match goal with
    | |- context [win_line_of res ?w0] =>
        destruct (win_line_of_pure res) as [line Hline];
        rewrite (Hline w0); by destruct line
    end.
Qed.

(** ** A failed request *)

(** X8.  When the request fails, each of the four handlers reports the
    failure in [msg], with its own prefix, clears [fetching], and
    changes nothing else: game id, game, board, result and win line stay
    what they were. *)
Theorem failed_request_only_reports (o : fetch_outcome) (e : exn) (w : World) :
  apiFetch_result o = Throw e →
  Forall (λ '(resume, prefix),
            resume o w
            = (Normal tt,
               {| app := setFetching false (setMsg (prefix ++ message e) (app w));
                  localStorage := localStorage w |}))
         [(startNewGame_resume, "Failed to create game: ");
          (joinGame_resume, "Could not join: ");
          (playMove_resume, "Move failed: ");
          (fetchGame_resume, "Load failed: ")].
Proof.
  intros Hfail.
  each_of_four;
    unfold startNewGame_resume, joinGame_resume, playMove_resume,
      fetchGame_resume; unfold_M; by rewrite Hfail.
Qed.

(** ** The match history *)

(** X9.  The history request always completes.  On failure, and on the body
    [null], the history becomes the empty array and the failure is
    reported in [msg]; otherwise the history is [res.games] if that is
    truthy, else the response itself if that is truthy, else the empty
    array, and [msg] keeps its text.  In every case the history ends up
    truthy and nothing but [history] and [msg] changes. *)
Theorem history_after_answer (o : fetch_outcome) (w : World) :
  ∃ h m,
    fetchMatchHistory_resume o w
    = (Normal tt,
       {| app := setHistory h (setMsg m (app w));
          localStorage := localStorage w |}) ∧
    truthy h = true ∧
    match apiFetch_result o with
    | Throw e => h = VArr [] ∧ m = "Failed to load history: " ++ message e
    | Normal res =>
        match get_prop res "games" with
        | Throw e => h = VArr [] ∧ m = "Failed to load history: " ++ message e
        | Normal games =>
            h = (if truthy games then games
                 else if truthy res then res else VArr []) ∧
            m = msg (app w)
        end
    end.
Proof.
  unfold fetchMatchHistory_resume, fetchMatchHistory_catch. unfold_M.
  destruct w as [s ls]. simpl.
  destruct (apiFetch_result o) as [res|e]; simpl.
  2:{ by eexists _, _. }
  destruct (get_prop res "games") as [games|e]; simpl.
  2:{ by eexists _, _. }
  exists (if truthy games then games else if truthy res then res else VArr []),
         (msg s).
  split; [by destruct s|]. split; [|done].
  destruct (truthy games) eqn:Hg; [done|]. by destruct (truthy res) eqn:Hr.
Qed.

(** ** What every event keeps *)

Lemma line_value_truthy l : truthy (line_value l) = true.
Proof. by destruct l as [[? ?] ?]. Qed.

Lemma getWinLine_value board w v w' :
  getWinLine board w = (Normal v, w') → v = VNull ∨ truthy v = true.
Proof.
  assert (Hok : (∀ i, ∃ x, get_index board i = Normal x) →
                getWinLine board w = (Normal v, w') →
                v = VNull ∨ truthy v = true).
  { intros Hget Hrun.
    destruct (getWinLine_from_indexable WIN_LINES board w Hget)
      as (r & Hr & Hcases).
    unfold getWinLine in Hrun. rewrite Hr in Hrun. simplify_eq.
    destruct Hcases as [->|(l & _ & ->)]; [by left|].
    right. apply line_value_truthy. }
  destruct board; try (by intros ?; simplify_eq);
    apply Hok; intros i; simpl; by eexists.
Qed.

Lemma win_line_of_value res w v w' :
  win_line_of res w = (Normal v, w') → v = VNull ∨ truthy v = true.
Proof.
  unfold win_line_of. unfold_M.
  destruct (get_prop res "win_line") as [win_line|]; [|by intros ?; simplify_eq].
  destruct (truthy win_line) eqn:Hw; [intros ?; simplify_eq; by right|].
  destruct (get_prop res "state") as [state|]; [|by intros ?; simplify_eq].
  apply getWinLine_value.
Qed.

(** Unfolds an answered handler and splits on what the answer holds. *)
Ltac split_answer Hline :=
  repeat (simpl; first
    [ rewrite Hline
    | match goal with
      | |- context [snapshot ?r] => destruct (snapshot r) eqn:?
      | |- context [get_prop ?r ?p] => destruct (get_prop r p) eqn:?
      | |- context [if truthy ?v then _ else _] => destruct (truthy v) eqn:?
      | |- context [match ?c with Normal _ => _ | Throw _ => _ end] =>
          is_var c; destruct c
      end ]).

Ltac run_answer o :=
  unfold after, handleAuth_resume, startNewGame_resume, joinGame_resume,
    playMove_resume, fetchGame_resume, fetchMatchHistory_resume,
    startNewGame_catch, joinGame_catch, playMove_catch, fetchGame_catch,
    fetchMatchHistory_catch;
  unfold_M;
  let res := fresh "res" in
  let line := fresh "line" in
  let Hl := fresh "Hl" in
  destruct (apiFetch_result o) as [res|?] eqn:?; simpl;
  [ destruct (win_line_of_pure res) as [line Hl];
    pose proof (λ v, win_line_of_value res initialWorld v initialWorld) as Hvalue;
    rewrite (Hl initialWorld) in Hvalue;
    split_answer Hl
  | ].

Ltac kept :=
  repeat split; auto; try done;
  try (rewrite result_of_winner; by right);
  try (match goal with Hv : ∀ v : value, _ |- _ => by apply Hv end).

Lemma well_kept_after (ev : event) (w : World) :
  well_kept (app w) → well_kept (app (after ev w)).
Proof.
  intros (Hres & Hline & Hhist & Htheme). destruct ev.
  - (* Mounted *)
    unfold after, loadUser. unfold_M. simpl.
    destruct (localStorage w !! "ttt-user") as [text|]; simpl.
    + destruct (JSON_parse text) as [u|]; simpl; [|done].
      by destruct (truthy u).
    + done.
  - (* ThemeToggled *)
    unfold after, toggleTheme. unfold_M. simpl.
    repeat split; try done. destruct (String.eqb _ _); auto.
  - done.
  - (* AuthAnswered *)
    unfold after, handleAuth_resume. unfold_M.
    by destruct (apiFetch_result o).
  - done.
  - (* NewGameAsked *)
    unfold after, startNewGame. unfold_M. simpl.
    by destruct (player_of_defined (user (app w))) as [p ->].
  - run_answer o; kept.
  - done.
  - run_answer o; kept.
  - (* CellPlayed *)
    unfold after, playMove. unfold_M. simpl.
    destruct (negb _ || negb _); [done|]. simpl.
    by destruct (player_of_defined (user (app w))) as [p ->].
  - run_answer o; kept.
  - done.
  - run_answer o; kept.
  - (* HistoryAsked *)
    unfold after, fetchMatchHistory. unfold_M. simpl.
    by destruct (player_of_defined (user (app w))) as [p ->].
  - run_answer o; kept.
Qed.

(** X10.  Whatever happens to the page, in whatever order (handlers started,
    requests answered well or badly, logout, reload, theme switch), the
    state keeps these facts: [result] is [null] or truthy, [winLine] is
    [null] or truthy (so [highlight && highlight.includes(idx)] never
    reads a falsy non-null line), [history] is truthy, and [theme] is
    ['light'] or ['dark']. *)
Theorem well_kept_always (evs : list event) (w : World) :
  well_kept (app w) → well_kept (app (after_all evs w)).
Proof.
  revert w. induction evs as [|ev evs IH]; intros w Hw; simpl; [done|].
  by apply IH, well_kept_after.
Qed.

Lemma storage_after (ev : event) (w : World) (k : string) :
  k ≠ "ttt-user" → localStorage (after ev w) !! k = localStorage w !! k.
Proof.
  intros Hk. destruct ev.
  - unfold after, loadUser. unfold_M. simpl.
    destruct (localStorage w !! "ttt-user") as [text|]; simpl.
    + destruct (JSON_parse text) as [u|]; simpl; [|done].
      by destruct (truthy u).
    + done.
  - done.
  - done.
  - unfold after, handleAuth_resume. unfold_M.
    destruct (apiFetch_result o); simpl; by rewrite lookup_insert_ne.
  - simpl. by rewrite lookup_delete_ne.
  - unfold after, startNewGame. unfold_M. simpl.
    by destruct (player_of_defined (user (app w))) as [p ->].
  - by run_answer o.
  - done.
  - by run_answer o.
  - unfold after, playMove. unfold_M. simpl.
    destruct (negb _ || negb _); [done|]. simpl.
    by destruct (player_of_defined (user (app w))) as [p ->].
  - by run_answer o.
  - done.
  - by run_answer o.
  - unfold after, fetchMatchHistory. unfold_M. simpl.
    by destruct (player_of_defined (user (app w))) as [p ->].
  - by run_answer o.
Qed.

(** X11.  The page writes no key of [localStorage] but [ttt-user]: after any
    sequence of events every other key holds what it held. *)
Theorem only_session_key_written (evs : list event) (w : World) (k : string) :
  k ≠ "ttt-user" →
  localStorage (after_all evs w) !! k = localStorage w !! k.
Proof.
  intros Hk. revert w. induction evs as [|ev evs IH]; intros w; simpl; [done|].
  rewrite IH. by apply storage_after.
Qed.

(** ** Reloading the page *)

(** X12.  A session survives a reload: when [JSON.parse] reads back what
    [JSON.stringify] wrote for the session set at login, and that
    session is truthy, mounting the page again on the storage login has
    left restores this session as [user]. *)
Theorem session_survives_reload (username : string) (o : fetch_outcome)
    (w : World) (fresh : AppState) :
  let w1 := snd (handleAuth_resume username o w) in
  JSON_parse (JSON_stringify (user (app w1))) = Normal (user (app w1)) →
  truthy (user (app w1)) = true →
  loadUser {| app := fresh; localStorage := localStorage w1 |}
  = (Normal tt,
     {| app := setUser (user (app w1)) fresh; localStorage := localStorage w1 |}).
Proof.
  intros w1 Hcodec Htruthy.
  assert (Hkey : localStorage w1 !! "ttt-user"
                 = Some (JSON_stringify (user (app w1)))).
  { subst w1. unfold handleAuth_resume. unfold_M.
    destruct (apiFetch_result o); simpl; apply lookup_insert_eq. }
  unfold loadUser. unfold_M. simpl.
  by rewrite Hkey, Hcodec, Htruthy.
Qed.

(** X13.  A logout survives a reload: mounting the page on the storage logout
    has left changes nothing, so the login form is shown. *)
Theorem logout_survives_reload (w : World) (fresh : AppState) :
  loadUser {| app := fresh; localStorage := localStorage (snd (logout w)) |}
  = (Normal tt,
     {| app := fresh; localStorage := localStorage (snd (logout w)) |}) ∧
  App (app (snd (loadUser {| app := initialApp;
                             localStorage := localStorage (snd (logout w)) |})))
  = AuthView handleAuth "" false.
Proof.
  assert (Hrun : ∀ s,
    loadUser {| app := s; localStorage := localStorage (snd (logout w)) |}
    = (Normal tt,
       {| app := s; localStorage := localStorage (snd (logout w)) |})).
  { intros s. unfold loadUser. unfold_M. simpl. by rewrite lookup_delete_eq. }
  split; [apply Hrun|]. by rewrite Hrun.
Qed.

(** ** Switching between the login form and the main view *)

(** X14.  After a login that fell back on the username, the main view is
    shown, greeting with that username, whatever the username is, the
    empty string included; after a logout the login form is shown, with
    [handleAuth] as its callback. *)
Theorem login_and_logout_switch_view (username : string) (o : fetch_outcome)
    (e : exn) (w : World) :
  apiFetch_result o = Throw e →
  (∃ main, App (app (snd (handleAuth_resume username o w))) = MainView main ∧
           shown_username main = Normal (VStr username) ∧
           new_game_disabled main = fetching (app w)) ∧
  App (app (snd (logout w)))
  = AuthView handleAuth (authError (app w)) (authLoading (app w)).
Proof.
  intros Hfail. split; [|done].
  unfold handleAuth_resume. unfold_M. rewrite Hfail. simpl.
  by eexists.
Qed.

(** ** The theme button *)

(** X15.  The theme button switches between ['light'] and ['dark'] and
    touches nothing else: the theme after a click is one of the two and
    differs from the theme before, and a second click restores the
    world when the theme was one of the two. *)
Theorem toggleTheme_alternates (w : World) :
  let w1 := snd (toggleTheme w) in
  toggleTheme w
  = (Normal tt, {| app := setTheme (theme (app w1)) (app w);
                   localStorage := localStorage w |}) ∧
  (theme (app w1) = "light" ∨ theme (app w1) = "dark") ∧
  theme (app w1) ≠ theme (app w) ∧
  (theme (app w) = "light" ∨ theme (app w) = "dark" →
   snd (toggleTheme w1) = w).
Proof.
  destruct w as [s ls]. unfold toggleTheme. unfold_M. simpl.
  split; [done|].
  destruct (String.eqb (theme s) "light") eqn:E.
  - apply String.eqb_eq in E. split; [by right|]. split; [by rewrite E|].
    intros _. simpl. destruct s; simpl in *. by subst.
  - apply String.eqb_neq in E. split; [by left|]. split; [done|].
    intros [?|Hd]; [done|]. simpl. destruct s; simpl in *. by subst.
Qed.

(** ** A concluded game *)

Lemma result_after_winner (k : fetch_outcome → M unit) o res winner w :
  k = playMove_resume ∨ k = fetchGame_resume →
  apiFetch_result o = Normal res →
  get_prop res "winner" = Normal winner →
  truthy winner = true →
  result (app (snd (k o w))) = winner.
Proof.
  intros Hk Hres Hwinner Htruthy.
  destruct (win_line_of_pure res) as [line Hl].
  destruct (snapshot_defined res "winner" winner Hwinner) as [cells Hsnap].
  destruct Hk; subst k; unfold playMove_resume, fetchGame_resume; unfold_M;
    rewrite Hres; split_answer Hl; simplify_eq; simpl;
    try congruence; by rewrite ?result_of_winner.
Qed.

(** X16.  Once the answer to a move or to a game load reports a winner, no
    click on any cell emits a move, whatever else the answer holds and
    whether or not the board can still be rendered. *)
Theorem concluded_game_locks_board (k : fetch_outcome → M unit)
    (o : fetch_outcome) (res winner : value) (w : World) :
  k = playMove_resume ∨ k = fetchGame_resume →
  apiFetch_result o = Normal res →
  get_prop res "winner" = Normal winner →
  truthy winner = true →
  ∀ idx,
    click (on_screen (GameBoard (App_GameBoard (app (snd (k o w)))))) idx = None ∧
    click (page_cells (App (app (snd (k o w))))) idx = None.
Proof.
  intros Hk Hres Hwinner Htruthy idx.
  assert (Hlock : click (on_screen (GameBoard (App_GameBoard
                           (app (snd (k o w)))))) idx = None).
  { apply locked_by_result.
    by rewrite (result_after_winner k o res winner w). }
  split; [done | by apply page_locked].
Qed.


(** X18.  A game load that goes through leaves a consistent state: the game
    is the response, the result is its winner or [null], the win line is
    the server's or the derived one, and the game is being played
    exactly when there is no result; then no overlay is shown. *)
Theorem fetchGame_consistent (o : fetch_outcome) (res winner line : value)
    (w : World) :
  apiFetch_result o = Normal res →
  get_prop res "winner" = Normal winner →
  win_line_of res w = (Normal line, w) →
  let s' := app (snd (fetchGame_resume o w)) in
  game s' = res ∧
  result s' = (if truthy winner then winner else VNull) ∧
  winLine s' = line ∧
  playing s' = negb (truthy (result s')) ∧
  fetching s' = false ∧
  (playing s' = true → App_GameResult s' = Normal NoCard).
Proof.
  intros Hres Hwinner Hline s'.
  destruct (win_line_of_pure res) as [line0 Hl].
  rewrite Hl in Hline. simplify_eq.
  destruct (snapshot_defined res "winner" winner Hwinner) as [cells Hsnap].
  subst s'. unfold App_GameResult, GameResult, fetchGame_resume. unfold_M.
  rewrite Hres. split_answer Hl; simplify_eq; simpl;
    rewrite ?result_of_winner; repeat split; try done; try congruence;
    by repeat match goal with Ht : truthy _ = _ |- _ => rewrite Ht end.
Qed.

(** ** A game that starts *)


(** ** The sidebar *)






(** X21.  When the history request is answered by an object without [games]
    (and without a [length] of 0), that object becomes the history, and
    the sidebar cannot be rendered: [history.map] is not a function. *)
Theorem sidebar_fails_on_object (o : fetch_outcome)
    (fields : list (string * value)) (w : World) :
  apiFetch_result o = Normal (VObj fields) →
  truthy (obj_lookup "games" fields) = false →
  strict_eq (obj_lookup "length" fields) (VNum 0) = false →
  history (app (snd (fetchMatchHistory_resume o w))) = VObj fields ∧
  App_MatchHistory (app (snd (fetchMatchHistory_resume o w)))
  = Throw (TypeError (VObj fields) (Name "map")).
Proof.
  intros Hres Hgames Hlength.
  unfold App_MatchHistory, fetchMatchHistory_resume. unfold_M.
  rewrite Hres. simpl. rewrite Hgames. simpl. by rewrite Hlength.
Qed.

End FurtherHandlerProperties.

(** ** Instances of the further properties on concrete inputs *)

Lemma failed_request_only_reports_witness :
  apiFetch_result no_backend = Throw (FetchError "Failed to fetch") ∧
  Forall (λ '(resume, prefix),
            resume no_backend initialWorld
            = (Normal tt,
               {| app := setFetching false
                           (setMsg (prefix ++ "Failed to fetch") (app initialWorld));
                  localStorage := localStorage initialWorld |}))
         [(@startNewGame_resume plain_runtime, "Failed to create game: ");
          (@joinGame_resume plain_runtime, "Could not join: ");
          (@playMove_resume plain_runtime, "Move failed: ");
          (@fetchGame_resume plain_runtime, "Load failed: ")].
Proof.
  split; [reflexivity|].
  exact (@failed_request_only_reports plain_runtime no_backend
           (FetchError "Failed to fetch") initialWorld eq_refl).
Defined.

Lemma well_kept_always_witness :
  well_kept (app initialWorld) ∧
  well_kept (app (@after_all plain_runtime sample_events initialWorld)).
Proof.
  assert (Hinit : well_kept (app initialWorld)).
  { repeat split; simpl; auto. }
  split; [exact Hinit|].
  exact (@well_kept_always plain_runtime sample_events initialWorld Hinit).
Defined.

Lemma only_session_key_written_witness :
  "other" ≠ "ttt-user" ∧
  localStorage (@after_all plain_runtime sample_events world_with_other_key)
    !! "other"
  = localStorage world_with_other_key !! "other".
Proof.
  assert (Hk : "other" ≠ "ttt-user") by discriminate.
  split; [exact Hk|].
  exact (@only_session_key_written plain_runtime sample_events
           world_with_other_key "other" Hk).
Defined.

Lemma session_survives_reload_witness :
  let w1 := snd (@handleAuth_resume session_runtime "ann" no_backend initialWorld) in
  @JSON_parse session_runtime (@JSON_stringify session_runtime (user (app w1)))
  = Normal (user (app w1)) ∧
  truthy (user (app w1)) = true ∧
  @loadUser session_runtime {| app := initialApp; localStorage := localStorage w1 |}
  = (Normal tt,
     {| app := setUser (user (app w1)) initialApp;
        localStorage := localStorage w1 |}).
Proof.
  intros w1. split; [reflexivity|]. split; [reflexivity|].
  exact (@session_survives_reload session_runtime "ann" no_backend
           initialWorld initialApp eq_refl eq_refl).
Defined.

Lemma login_and_logout_switch_view_witness :
  apiFetch_result no_backend = Throw (FetchError "Failed to fetch") ∧
  @App plain_runtime (app (snd (logout game_in_progress)))
  = AuthView (@handleAuth plain_runtime) "" false.
Proof.
  split; [reflexivity|].
  exact (proj2 (@login_and_logout_switch_view plain_runtime "ann" no_backend
                  (FetchError "Failed to fetch") game_in_progress eq_refl)).
Defined.

Lemma concluded_game_locks_board_witness :
  apiFetch_result won_response = Normal won_game ∧
  get_prop won_game "winner" = Normal X ∧
  truthy X = true ∧
  ∀ idx,
    click (on_screen (GameBoard (@App_GameBoard plain_runtime
             (app (snd (@playMove_resume plain_runtime won_response
                          game_in_progress)))))) idx
    = None ∧
    click (page_cells (@App plain_runtime
             (app (snd (@playMove_resume plain_runtime won_response
                          game_in_progress))))) idx
    = None.
Proof.
  split; [reflexivity|]. split; [reflexivity|]. split; [reflexivity|].
  exact (@concluded_game_locks_board plain_runtime
           (@playMove_resume plain_runtime) won_response won_game X
           game_in_progress (or_introl eq_refl) eq_refl eq_refl eq_refl).
Defined.


Lemma fetchGame_consistent_witness :
  apiFetch_result won_response = Normal won_game ∧
  get_prop won_game "winner" = Normal X ∧
  win_line_of won_game initialWorld
  = (Normal (VArr [VNum 0; VNum 1; VNum 2]), initialWorld) ∧
  playing (app (snd (@fetchGame_resume plain_runtime won_response initialWorld)))
  = false.
Proof.
  split; [reflexivity|]. split; [reflexivity|]. split; [reflexivity|].
  destruct (@fetchGame_consistent plain_runtime won_response won_game X
              (VArr [VNum 0; VNum 1; VNum 2]) initialWorld
              eq_refl eq_refl eq_refl)
    as (_ & Hresult & _ & Hplaying & _).
  rewrite Hplaying, Hresult. reflexivity.
Defined.



Lemma sidebar_fails_on_object_witness :
  apiFetch_result empty_object_response = Normal (VObj []) ∧
  truthy (obj_lookup "games" []) = false ∧
  strict_eq (obj_lookup "length" []) (VNum 0) = false ∧
  @App_MatchHistory plain_runtime
    (app (snd (@fetchMatchHistory_resume plain_runtime empty_object_response
                 initialWorld)))
  = Throw (TypeError (VObj []) (Name "map")).
Proof.
  split; [reflexivity|]. split; [reflexivity|]. split; [reflexivity|].
  exact (proj2 (@sidebar_fails_on_object plain_runtime empty_object_response
                  [] initialWorld eq_refl eq_refl eq_refl)).
Defined.

Section FurtherAuthProperties.
Context `{Runtime}.

Lemma player_of_fallback (username : string) :
  player_of (VObj [("id", VStr username); ("username", VStr username)])
  = Normal (VStr username).
Proof.
  unfold player_of. unfold_M. simpl.
  destruct (String.eqb username "") eqn:E; simpl; [|done].
  by apply String.eqb_eq in E as ->.
Qed.

(** X22.  After a login that fell back on the username, the requests that
    start a game and that submit a move name the player by that
    username (also when it is empty), and the move request carries the
    index of the cell that was played. *)
Theorem fallback_session_names_player (username : string) (o : fetch_outcome)
    (e : exn) (cellIdx : nat) (w : World) :
  apiFetch_result o = Throw e →
  let w1 := snd (handleAuth_resume username o w) in
  fst (startNewGame w1)
  = Normal (Await (API_BASE ++ "/games")
              {| method := Some "POST";
                 body := Some (JSON_stringify (VObj [("player", VStr username)])) |}
              startNewGame_resume) ∧
  (truthy (gameId (app w)) = true →
   fst (playMove cellIdx w1)
   = Normal (Await (API_BASE ++ "/games/" ++ ToString (gameId (app w)) ++ "/move")
               {| method := Some "POST";
                  body := Some (JSON_stringify
                           (VObj [("player", VStr username);
                                  ("move_index", VNum (Z.of_nat cellIdx))])) |}
               playMove_resume)).
Proof.
  intros Hfail w1.
  assert (Hw1 : app w1
    = setAuthLoading false
        (setUser (VObj [("id", VStr username); ("username", VStr username)])
                 (app w))).
  { subst w1. unfold handleAuth_resume. unfold_M. by rewrite Hfail. }
  split.
  - unfold startNewGame. unfold_M. simpl. rewrite Hw1. simpl.
    by rewrite player_of_fallback.
  - intros Hgame. unfold playMove. unfold_M. simpl. rewrite Hw1. simpl.
    rewrite Hgame. simpl. by rewrite player_of_fallback.
Qed.

(** X23.  The backend's answer to a login is taken as the session as it is,
    and written to [ttt-user]; when that answer is falsy ([null],
    [false], [0] or the empty string) nobody is logged in: the login
    form is shown again, not loading, and with no error. *)
Theorem falsy_login_answer_shows_form (username : string) (o : fetch_outcome)
    (res : value) (w : World) :
  apiFetch_result o = Normal res →
  truthy res = false →
  handleAuth_resume username o w
  = (Normal tt,
     {| app := setAuthLoading false (setUser res (app w));
        localStorage := <["ttt-user" := JSON_stringify res]> (localStorage w) |}) ∧
  App (app (snd (handleAuth_resume username o w)))
  = AuthView handleAuth (authError (app w)) false.
Proof.
  intros Hres Hfalsy.
  assert (Hrun : handleAuth_resume username o w
    = (Normal tt,
       {| app := setAuthLoading false (setUser res (app w));
          localStorage := <["ttt-user" := JSON_stringify res]> (localStorage w) |})).
  { unfold handleAuth_resume. unfold_M. by rewrite Hres. }
  split; [done|]. rewrite Hrun. unfold App. simpl. by rewrite Hfalsy.
Qed.

End FurtherAuthProperties.

Lemma fallback_session_names_player_witness :
  apiFetch_result no_backend = Throw (FetchError "Failed to fetch") ∧
  fst (@startNewGame plain_runtime
         (snd (@handleAuth_resume plain_runtime "ann" no_backend initialWorld)))
  = Normal (Await "http://localhost:8000/games"
              {| method := Some "POST"; body := Some "{}" |}
              (@startNewGame_resume plain_runtime)).
Proof.
  split; [reflexivity|].
  exact (proj1 (@fallback_session_names_player plain_runtime "ann" no_backend
                  (FetchError "Failed to fetch") 0%nat initialWorld eq_refl)).
Defined.

Lemma falsy_login_answer_shows_form_witness :
  apiFetch_result (Responded true (Normal VNull)) = Normal VNull ∧
  truthy VNull = false ∧
  @App plain_runtime
    (app (snd (@handleAuth_resume plain_runtime "ann"
                 (Responded true (Normal VNull)) initialWorld)))
  = AuthView (@handleAuth plain_runtime) "" false.
Proof.
  split; [reflexivity|]. split; [reflexivity|].
  exact (proj2 (@falsy_login_answer_shows_form plain_runtime "ann"
                  (Responded true (Normal VNull)) VNull initialWorld
                  eq_refl eq_refl)).
Defined.

(** ** The highlighted cells *)

Lemma highlighted_line a b c idx :
  highlighted (line_value (a, b, c)) idx
  = Normal (bool_decide (idx = a ∨ idx = b ∨ idx = c)).
Proof.
  unfold highlighted. simpl. f_equal. rewrite orb_false_r.
  destruct (decide (idx = a)) as [->|Ha].
  { rewrite Z.eqb_refl. simpl. symmetry. apply bool_decide_eq_true. by left. }
  destruct (decide (idx = b)) as [->|Hb].
  { rewrite Z.eqb_refl, orb_true_r. simpl.
    symmetry. apply bool_decide_eq_true. right; by left. }
  destruct (decide (idx = c)) as [->|Hc].
  { rewrite Z.eqb_refl, !orb_true_r.
    symmetry. apply bool_decide_eq_true. right; by right. }
  replace (Z.of_nat a =? Z.of_nat idx) with false
    by (symmetry; apply Z.eqb_neq; lia).
  replace (Z.of_nat b =? Z.of_nat idx) with false
    by (symmetry; apply Z.eqb_neq; lia).
  replace (Z.of_nat c =? Z.of_nat idx) with false
    by (symmetry; apply Z.eqb_neq; lia).
  symmetry. apply bool_decide_eq_false. intros [?|[?|?]]; done.
Qed.

(** X24.  When the win line shown is the one [getWinLine] derives from
    an array, either no line is found and no cell is highlighted, or the
    highlighted cells are exactly the three cells of one of the eight
    triples, and these hold the same non-empty mark. *)
Theorem highlight_marks_winning_cells (cells : list value) (w : World) :
  ∃ r, getWinLine (VArr cells) w = (Normal r, w) ∧
       ((r = VNull ∧ ∀ idx, highlighted r idx = Normal false) ∨
        ∃ a b c m,
          (a, b, c) ∈ WIN_LINES ∧ r = line_value (a, b, c) ∧
          (∀ idx, highlighted r idx
                  = Normal (bool_decide (idx = a ∨ idx = b ∨ idx = c))) ∧
          truthy m = true ∧
          cells !! a = Some m ∧ cells !! b = Some m ∧ cells !! c = Some m).
Proof.
  rewrite getWinLine_array. eexists. split; [done|].
  destruct (find (line_wins cells) WIN_LINES) as [[[a b] c]|] eqn:F; simpl.
  - right. apply find_some in F as [Hin Hw]. apply list_elem_of_In in Hin.
    apply line_wins_cells in Hw as (m & ? & ? & ? & ?).
    exists a, b, c, m. repeat split; try done.
    intros idx. apply highlighted_line.
  - left. by split.
Qed.
